(** * Game Portal: the catalog loader, the card renderer and the tag filter

    A shallow embedding of [script.js].  The page is an explicit state
    ([Page]): the module-level variable [allGamesData], the children of the
    two mount points, the click listener and the console.  Every function of
    the script is a computation in a small state-and-exception monad [JS],
    because a JavaScript exception leaves the mutations made before it in
    place.

    Scope of the model.  Strings are [string]s.  The parsed body is an
    array of records or a JSON value that is no array; a record is a JSON
    object whose six known keys are either absent or hold a value of the
    type the data source documents (text, or a sequence of text for
    [tags]); arrays with other members are not modelled.
    [String.prototype.toLowerCase] is a parameter of the
    development (section variable [toLowerCase]), so the theorems hold for
    the real Unicode case folding; [asciiLower] is the instance used to
    evaluate examples.  The elements carrying the class [tag-filter] are the
    ones inside the tag filter container. *)

From Stdlib Require Import String Ascii List Bool Arith ZArith Lia.
Import ListNotations.
Local Open Scope list_scope.
Local Open Scope string_scope.

(** ** JavaScript values and helpers *)

(** The double quote character, for the HTML literals of the script. *)
Definition dq : string := String (ascii_of_nat 34) EmptyString.

(** [a || d] on an optional text value: [undefined] and the empty string
    are falsy. *)
Definition orElse (a : option string) (d : string) : string :=
  match a with
  | Some (String c s) => String c s
  | Some EmptyString => d
  | None => d
  end.

(** [tags || []]: every array, also the empty one, is truthy. *)
Definition orEmpty (a : option (list string)) : list string :=
  match a with
  | Some l => l
  | None => []
  end.

(** [Array.prototype.join]. *)
Definition join (sep : string) (l : list string) : string :=
  String.concat sep l.

(** [Array.prototype.includes] on an array of strings; the searched value
    is the result of [getAttribute], [null] (here [None]) when the attribute
    is absent, and [null] equals no string. *)
Definition includes (l : list string) (x : option string) : bool :=
  match x with
  | Some s => existsb (String.eqb s) l
  | None => false
  end.

(** [x === 'all'] for the result of [getAttribute]. *)
Definition isAll (x : option string) : bool :=
  match x with
  | Some s => String.eqb s "all"
  | None => false
  end.

(** ASCII case folding: [toLowerCase] restricted to ASCII text. *)
Definition lowerChar (c : ascii) : ascii :=
  let n := nat_of_ascii c in
  if ((65 <=? n) && (n <=? 90))%nat then ascii_of_nat (n + 32) else c.

Fixpoint asciiLower (s : string) : string :=
  match s with
  | EmptyString => EmptyString
  | String c r => String (lowerChar c) (asciiLower r)
  end.

(** [encodeURI], byte by byte (a [string] read as UTF-8): the characters
    the standard leaves alone are kept, every other byte is escaped. *)
Definition uriKept (c : ascii) : bool :=
  let n := nat_of_ascii c in
  ((65 <=? n) && (n <=? 90))%nat || ((97 <=? n) && (n <=? 122))%nat ||
  ((48 <=? n) && (n <=? 57))%nat ||
  existsb (Ascii.eqb c) (list_ascii_of_string ";,/?:@&=+$-_.!~*'()#").

Definition hexDigit (n : nat) : ascii :=
  if (n <? 10)%nat then ascii_of_nat (48 + n) else ascii_of_nat (55 + n).

Definition percent (c : ascii) : string :=
  let n := nat_of_ascii c in
  String "%" (String (hexDigit (n / 16)) (String (hexDigit (n mod 16)) EmptyString)).

Fixpoint encodeURI (s : string) : string :=
  match s with
  | EmptyString => EmptyString
  | String c r =>
      if uriKept c then String c (encodeURI r) else percent c ++ encodeURI r
  end.

(** A [Set] of strings: iteration follows insertion order, [add] of a
    member changes nothing. *)
Definition JsSet := list string.

Definition has (s : JsSet) (x : string) : bool := existsb (String.eqb x) s.

Definition add (s : JsSet) (x : string) : JsSet :=
  if has s x then s else (s ++ [x])%list.

(** [DOMTokenList]: [contains], [add], [remove]. *)
Definition contains (cl : list string) (c : string) : bool :=
  existsb (String.eqb c) cl.

Definition classAdd (cl : list string) (c : string) : list string :=
  if contains cl c then cl else (cl ++ [c])%list.

Definition classRemove (cl : list string) (c : string) : list string :=
  filter (fun x => negb (String.eqb c x)) cl.

(** ** Data model *)

(** One entry of [games_catalog.json]; [None] is an absent key. *)
Record GameRecord := mkGame {
  title : option string;
  description : option string;
  thumbnail : option string;
  link : option string;
  github_url : option string;
  tags : option (list string)
}.

(** The only handler the script installs on an image. *)
Inductive Handler := PlaceholderFallback.

Record Img := mkImg {
  img_className : string;
  alt : string;
  src : string;
  onerror : option Handler
}.

Record Anchor := mkAnchor {
  a_className : string;
  href : string;
  target : string;
  a_innerHTML : string
}.

(** A card: the [div.game-card] and its three children. *)
Record Card := mkCard {
  card_className : string;
  data_tags : string;
  img : Img;
  content_className : string;
  content_innerHTML : string;
  btnGroup_className : string;
  playBtn : Anchor;
  srcBtn : Anchor
}.

(** A child of the game list container: a paragraph written through
    [innerHTML] (with its [style] attribute, if any) or an appended card. *)
Inductive Node :=
| Paragraph (style : option string) (text : string)
| CardNode (card : Card).

(** An element of the tag filter container. *)
Record Element := mkElement {
  classList : list string;
  textContent : string;
  data_tag : option string
}.

(** The exceptions of the script: its own [Error], the [TypeError] of a
    failed property read or call, the [SyntaxError] of [response.json()],
    and the exception a rejected [fetch] carries. *)
Inductive Exn :=
| Error (message : string)
| TypeError
| SyntaxError
| NetworkError.

(** A JSON value, as [JSON.parse] delivers it; the members of an object
    are kept in their order, a later member of the same name winning.
    Numbers are integers here: the script only compares one with 0. *)
#[local] Set Warnings "-register-all".
Inductive JsonValue :=
| JNull
| JBool (b : bool)
| JNumber (n : Z)
| JString (s : string)
| JArray (items : list JsonValue)
| JObject (members : list (string * JsonValue)).

(** A parsed body that is not an array. *)
Inductive NonArray :=
| NullValue
| BoolValue (b : bool)
| NumberValue (n : Z)
| StringValue (s : string)
| ObjectValue (members : list (string * JsonValue)).

(** What [allGamesData] can hold: the initial empty array, a parsed array
    of records, or a parsed value that is no array. *)
Inductive Parsed :=
| Records (games : list GameRecord)
| NotArray (v : NonArray).

(** Where the element with id [loading-message] sits, when the page has
    one: an [innerHTML] write on the game list container detaches it in the
    first case only. *)
Inductive Place := InGameList | Elsewhere.

Record Page := mkPage {
  allGamesData : Parsed;
  gameListContainer : list Node;
  tagFilterContainer : list Element;
  clickListener : bool;
  loadingMessage : option Place;
  console : list Exn
}.

(** The page as the script finds it before [loadGameCatalog] runs, for a
    given markup of the filter container. *)
Definition initialPage (markup : list Element) (loading : option Place) : Page :=
  mkPage (Records []) [] markup false loading [].

(** ** The state-and-exception monad *)

Inductive Outcome (A : Type) :=
| Returned (a : A)
| Thrown (e : Exn).
Arguments Returned {A} a.
Arguments Thrown {A} e.

Definition JS (A : Type) : Type := Page -> Outcome A * Page.

Definition ret {A} (a : A) : JS A := fun st => (Returned a, st).

Definition throw {A} (e : Exn) : JS A := fun st => (Thrown e, st).

Definition bind {A B} (m : JS A) (k : A -> JS B) : JS B :=
  fun st =>
    match m st with
    | (Returned a, st') => k a st'
    | (Thrown e, st') => (Thrown e, st')
    end.

(** [try { body } catch (error) { handler }]: the handler starts from the
    state the body left. *)
Definition tryCatch {A} (body : JS A) (handler : Exn -> JS A) : JS A :=
  fun st =>
    match body st with
    | (Returned a, st') => (Returned a, st')
    | (Thrown e, st') => handler e st'
    end.

(** A computation that cannot change the page ([await] of a settled
    promise, a pure expression that may throw). *)
Definition lift {A} (o : Outcome A) : JS A := fun st => (o, st).

Notation "x <- m ;; k" := (bind m (fun x => k))
  (at level 61, m at next level, right associativity).
Notation "m ;; k" := (bind m (fun _ => k))
  (at level 61, right associativity).

(** [Array.prototype.forEach] with an effectful callback: an exception of
    the callback ends the loop. *)
Fixpoint forEach {A} (l : list A) (f : A -> JS unit) : JS unit :=
  match l with
  | [] => ret tt
  | x :: r => f x ;; forEach r f
  end.

(** The final page and the outcome of a computation. *)
Definition exec {A} (m : JS A) (st : Page) : Page := snd (m st).
Definition outcome {A} (m : JS A) (st : Page) : Outcome A := fst (m st).

(** ** Primitive effects on the page *)

(** The loading indicator after the children of the game list container
    have been replaced. *)
Definition detach (loading : option Place) : option Place :=
  match loading with
  | Some InGameList => None
  | other => other
  end.

(** [gameListContainer.innerHTML = ...] *)
Definition setInnerHTML (nodes : list Node) : JS unit :=
  fun st =>
    (Returned tt,
     mkPage (allGamesData st) nodes (tagFilterContainer st) (clickListener st)
            (detach (loadingMessage st)) (console st)).

(** [gameListContainer.appendChild(card)] *)
Definition appendCard (card : Card) : JS unit :=
  fun st =>
    (Returned tt,
     mkPage (allGamesData st) (gameListContainer st ++ [CardNode card])%list
            (tagFilterContainer st) (clickListener st) (loadingMessage st)
            (console st)).

(** [tagFilterContainer.appendChild(button)] *)
Definition appendButton (button : Element) : JS unit :=
  fun st =>
    (Returned tt,
     mkPage (allGamesData st) (gameListContainer st)
            (tagFilterContainer st ++ [button])%list (clickListener st)
            (loadingMessage st) (console st)).

(** Replaces the elements of the filter container (class list updates). *)
Definition setFilterElements (els : list Element) : JS unit :=
  fun st =>
    (Returned tt,
     mkPage (allGamesData st) (gameListContainer st) els (clickListener st)
            (loadingMessage st) (console st)).

(** [tagFilterContainer.addEventListener('click', handleTagFilterClick)] *)
Definition addClickListener : JS unit :=
  fun st =>
    (Returned tt,
     mkPage (allGamesData st) (gameListContainer st) (tagFilterContainer st)
            true (loadingMessage st) (console st)).

(** [allGamesData = games] *)
Definition setAllGamesData (games : Parsed) : JS unit :=
  fun st =>
    (Returned tt,
     mkPage games (gameListContainer st) (tagFilterContainer st)
            (clickListener st) (loadingMessage st) (console st)).

(** [if (loadingMessage) loadingMessage.remove()] *)
Definition removeLoadingMessage : JS unit :=
  fun st =>
    (Returned tt,
     mkPage (allGamesData st) (gameListContainer st) (tagFilterContainer st)
            (clickListener st) None (console st)).

(** [console.error(..., error)] *)
Definition consoleError (e : Exn) : JS unit :=
  fun st =>
    (Returned tt,
     mkPage (allGamesData st) (gameListContainer st) (tagFilterContainer st)
            (clickListener st) (loadingMessage st) (console st ++ [e])%list).

Definition getAllGamesData : JS Parsed :=
  fun st => (Returned (allGamesData st), st).

Definition getFilterElements : JS (list Element) :=
  fun st => (Returned (tagFilterContainer st), st).

(** ** List Renderer *)

Definition placeholderSvg : string :=
  encodeURI "data:image/svg+xml;utf8,
      <svg xmlns='http://www.w3.org/2000/svg' width='800' height='400'>
        <rect width='100%' height='100%' fill='%232c394b'/>
        <text x='50%' y='50%' dominant-baseline='middle' text-anchor='middle' fill='%23b0b0b0' font-family='Segoe UI, Arial' font-size='24'>No image</text>
      </svg>
    ".

Definition noResults : Node :=
  Paragraph None "No games found matching the selected filter.".

Definition errorMessage : Node :=
  Paragraph (Some "color:red;")
    "Error: Could not load game catalog. Check console for details.".

(** [(game.tags || []).map(tag => `<span>${tag}</span>`)]: one badge per
    tag. *)
Definition badges (game : GameRecord) : list string :=
  map (fun tag => "<span>" ++ tag ++ "</span>") (orEmpty (tags game)).

(** [....join('')] *)
Definition tagsHtml (game : GameRecord) : string :=
  join EmptyString (badges game).

(** The template literal assigned to [content.innerHTML]. *)
Definition contentTemplate (h3 p cardTags : string) : string :=
  "
            <h3>" ++ h3 ++ "</h3>
            <p>" ++ p ++ "</p>
            <div class=" ++ dq ++ "card-tags" ++ dq ++ ">" ++ cardTags ++ "</div>
        ".

(** The body of the [games.forEach] callback up to the [appendChild] on the
    container: the card built for one record. *)
Definition makeCard (game : GameRecord) : Card :=
  {| card_className := "game-card";
     data_tags := join "," (orEmpty (tags game));
     img := {| img_className := "game-thumbnail";
               alt := orElse (title game) "Game thumbnail";
               src := orElse (thumbnail game) placeholderSvg;
               onerror := Some PlaceholderFallback |};
     content_className := "card-content";
     content_innerHTML :=
       contentTemplate (orElse (title game) "Untitled")
                       (orElse (description game) EmptyString)
                       (tagsHtml game);
     btnGroup_className := "button-group";
     playBtn := {| a_className := "play-button";
                   href := orElse (link game) "#";
                   target := "_blank";
                   a_innerHTML := "<i class=" ++ dq ++ "fas fa-gamepad" ++ dq
                                  ++ "></i> PLAY NOW" |};
     srcBtn := {| a_className := "source-button";
                  href := orElse (github_url game) "#";
                  target := "_blank";
                  a_innerHTML := "<i class=" ++ dq ++ "fab fa-github" ++ dq
                                 ++ "></i> Code" |} |}.

Definition renderGameList (games : list GameRecord) : JS unit :=
  setInnerHTML [] ;;
  if (length games =? 0)%nat then setInnerHTML [noResults]
  else forEach games (fun game => appendCard (makeCard game)).

(** What [renderGameList] leaves in the container for a given input. *)
Definition renderedNodes (games : list GameRecord) : list Node :=
  match games with
  | [] => [noResults]
  | _ :: _ => map (fun game => CardNode (makeCard game)) games
  end.

(** The member [name] of a parsed object. *)
Definition member (name : string) (members : list (string * JsonValue))
  : option JsonValue :=
  fold_left (fun found m => if String.eqb (fst m) name then Some (snd m) else found)
            members None.

(** [games.length === 0] on a value that is no array: reading a property
    of [null] is a [TypeError]; a boolean or a number has no [length]; a
    string has length 0 when it is empty; an object has the [length] it
    was given, if any. *)
Definition lengthIsZero (games : NonArray) : Outcome bool :=
  match games with
  | NullValue => Thrown TypeError
  | BoolValue _ => Returned false
  | NumberValue _ => Returned false
  | StringValue s => Returned (String.eqb s EmptyString)
  | ObjectValue members =>
      Returned (match member "length" members with
                | Some (JNumber n) => Z.eqb n 0
                | _ => false
                end)
  end.

(** [renderGameList] called with a value that is no array: the container
    is cleared, [length] is read, and past the test [games.forEach] is not
    a function. *)
Definition renderGameListNonArray (games : NonArray) : JS unit :=
  setInnerHTML [] ;;
  empty <- lift (lengthIsZero games) ;;
  if (empty : bool) then setInnerHTML [noResults]
  else throw TypeError.

(** [renderGameList] called with whatever [allGamesData] holds. *)
Definition renderGameListAny (games : Parsed) : JS unit :=
  match games with
  | Records records => renderGameList records
  | NotArray v => renderGameListNonArray v
  end.

(** The [error] event on an image: the installed handler, if any, runs.
    The handler of the script clears itself, then assigns the placeholder.
    The result carries the assignments to [src] the event caused. *)
Definition runHandler (h : Handler) (i : Img) : Img * list string :=
  match h with
  | PlaceholderFallback =>
      ({| img_className := img_className i;
          alt := alt i;
          src := placeholderSvg;
          onerror := None |},
       [placeholderSvg])
  end.

Definition dispatchError (i : Img) : Img * list string :=
  match onerror i with
  | Some h => runHandler h i
  | None => (i, [])
  end.

(** The browser loading an image: it fetches [src]; on failure it fires
    [error], and an assignment to [src] by the handler starts a new fetch.
    [loads] tells which resources can be fetched; the result is the final
    image, whether it shows, and the number of fetches made. *)
Fixpoint loadImage (fuel : nat) (loads : string -> bool) (i : Img)
  : option (Img * bool * nat) :=
  match fuel with
  | O => None
  | S fuel' =>
      if loads (src i) then Some (i, true, 1)
      else
        match dispatchError i with
        | (i', []) => Some (i', false, 1)
        | (i', _ :: _) =>
            match loadImage fuel' loads i' with
            | Some (j, ok, n) => Some (j, ok, S n)
            | None => None
            end
        end
  end.

(** [map] on one position of a list, the rest unchanged (an element of a
    node list mutated in place).  Out of range it changes nothing. *)
Fixpoint updateNth {A} (n : nat) (f : A -> A) (l : list A) : list A :=
  match l, n with
  | [], _ => []
  | x :: r, O => f x :: r
  | x :: r, S n' => x :: updateNth n' f r
  end.

(** ** Tag Filter Controller and Catalog Loader *)

Section Script.

(** [String.prototype.toLowerCase]. *)
Variable toLowerCase : string -> string.

(** [games.forEach(game => { game.tags.forEach(tag => uniqueTags.add(tag)) })]:
    [game.tags.forEach] on an absent [tags] is a [TypeError]. *)
Fixpoint collectTags (games : list GameRecord) (uniqueTags : JsSet)
  : Outcome JsSet :=
  match games with
  | [] => Returned uniqueTags
  | game :: rest =>
      match tags game with
      | None => Thrown TypeError
      | Some ts => collectTags rest (fold_left add ts uniqueTags)
      end
  end.

(** The button created for one member of [uniqueTags]. *)
Definition makeButton (tag : string) : Element :=
  {| classList := ["tag-filter"];
     textContent := tag;
     data_tag := Some (toLowerCase tag) |}.

Definition populateTagFilters (games : list GameRecord) : JS unit :=
  uniqueTags <- lift (collectTags games []) ;;
  forEach uniqueTags (fun tag => appendButton (makeButton tag)) ;;
  addClickListener.

(** [populateTagFilters] called with whatever [allGamesData] holds: on a
    value that is no array [games.forEach] throws before anything is
    created ([forEach] of [null], or a call of what is no function). *)
Definition populateTagFiltersAny (games : Parsed) : JS unit :=
  match games with
  | Records records => populateTagFilters records
  | NotArray _ => throw TypeError
  end.

(** [allGamesData.filter(game =>
       game.tags.map(t => t.toLowerCase()).includes(selectedTag))]:
    the callback runs on every record, and [game.tags.map] on an absent
    [tags] is a [TypeError]. *)
Fixpoint filterGames (games : list GameRecord) (selectedTag : option string)
  : Outcome (list GameRecord) :=
  match games with
  | [] => Returned []
  | game :: rest =>
      match tags game with
      | None => Thrown TypeError
      | Some ts =>
          match filterGames rest selectedTag with
          | Returned kept =>
              Returned (if includes (map toLowerCase ts) selectedTag
                        then game :: kept else kept)
          | Thrown e => Thrown e
          end
      end
  end.

(** The filter logic of the handler: the value of [filteredGames] for the
    catalog and the key of the clicked control. *)
Definition filteredGames (catalog : list GameRecord)
           (selectedTag : option string) : Outcome (list GameRecord) :=
  if isAll selectedTag then Returned catalog
  else filterGames catalog selectedTag.

(** [btn.classList.remove('active')] on the elements
    [querySelectorAll('.tag-filter')] selects. *)
Definition deactivate (btn : Element) : Element :=
  if contains (classList btn) "tag-filter"
  then {| classList := classRemove (classList btn) "active";
          textContent := textContent btn;
          data_tag := data_tag btn |}
  else btn.

(** [clickedButton.classList.add('active')] *)
Definition activate (btn : Element) : Element :=
  {| classList := classAdd (classList btn) "active";
     textContent := textContent btn;
     data_tag := data_tag btn |}.

(** The handler; [eventTarget] is the position of [event.target] among the
    elements of the filter container.  A target that is none of them (the
    container itself) does not carry the class.  When [allGamesData] holds
    a value that is no array, the key "all" passes that value to the
    renderer and every other key fails on [allGamesData.filter]. *)
Definition handleTagFilterClick (eventTarget : nat) : JS unit :=
  els <- getFilterElements ;;
  match nth_error els eventTarget with
  | None => ret tt
  | Some clickedButton =>
      if negb (contains (classList clickedButton) "tag-filter") then ret tt
      else
        let selectedTag := data_tag clickedButton in
        setFilterElements (map deactivate els) ;;
        els' <- getFilterElements ;;
        setFilterElements (updateNth eventTarget activate els') ;;
        catalog <- getAllGamesData ;;
        match catalog with
        | Records records =>
            games <- lift (filteredGames records selectedTag) ;;
            renderGameList games
        | NotArray v =>
            if isAll selectedTag then renderGameListNonArray v
            else throw TypeError
        end
  end.

(** A click delivered by the browser: without a registered listener nothing
    runs; an exception of the listener is reported on the console and goes
    no further. *)
Definition click (eventTarget : nat) : JS unit :=
  fun st =>
    if clickListener st
    then tryCatch (handleTagFilterClick eventTarget) consoleError st
    else (Returned tt, st).

(** What the single [fetch] and [response.json()] can deliver: a body
    that is not JSON, the sequence of records the data source is
    documented to hold, or JSON that is no array. *)
Inductive Body :=
| InvalidJson
| Json (games : list GameRecord)
| JsonNonArray (v : NonArray).

(** [await response.json()] *)
Definition json (body : Body) : Outcome Parsed :=
  match body with
  | InvalidJson => Thrown SyntaxError
  | Json games => Returned (Records games)
  | JsonNonArray v => Returned (NotArray v)
  end.

Inductive FetchResult :=
| Rejected
| Response (ok : bool) (statusText : string) (body : Body).

(** The [try] block of [loadGameCatalog]. *)
Definition loadGameCatalog_try (fetched : FetchResult) : JS unit :=
  match fetched with
  | Rejected => throw NetworkError
  | Response ok statusText body =>
      if negb ok then throw (Error ("Failed to load catalog: " ++ statusText))
      else
        parsed <- lift (json body) ;;
        setAllGamesData parsed ;;
        removeLoadingMessage ;;
        catalog <- getAllGamesData ;;
        renderGameListAny catalog ;;
        catalog' <- getAllGamesData ;;
        populateTagFiltersAny catalog'
  end.

Definition loadGameCatalog (fetched : FetchResult) : JS unit :=
  tryCatch (loadGameCatalog_try fetched)
           (fun error => consoleError error ;; setInnerHTML [errorMessage]).

(** The subset of the specification, in its words: the records of the
    catalog whose tags, lower-cased, contain the lower-cased tag. *)
Definition specSubset (catalog : list GameRecord) (t : string)
  : list GameRecord :=
  filter (fun g =>
            if in_dec string_dec (toLowerCase t)
                      (map toLowerCase (orEmpty (tags g)))
            then true else false)
         catalog.

End Script.

(** ** Observations on the display *)

Definition isCard (n : Node) : bool :=
  match n with CardNode _ => true | Paragraph _ _ => false end.

Definition cards (st : Page) : list Card :=
  flat_map (fun n => match n with CardNode c => [c] | Paragraph _ _ => [] end)
           (gameListContainer st).

Definition messages (st : Page) : list Node :=
  filter (fun n => negb (isCard n)) (gameListContainer st).

Definition isActive (e : Element) : bool := contains (classList e) "active".

Definition isControl (e : Element) : bool := contains (classList e) "tag-filter".

Definition activeControl (e : Element) : bool := isControl e && isActive e.

(** The filter controls marked active. *)
Definition activeControls (st : Page) : list Element :=
  filter activeControl (tagFilterContainer st).

(** The marks of the controls after the two class updates of the handler. *)
Definition marked (eventTarget : nat) (els : list Element) : list Element :=
  updateNth eventTarget activate (map deactivate els).

(** The page with other elements in the filter container, and the page
    after a render. *)
Definition withFilterElements (st : Page) (els : list Element) : Page :=
  mkPage (allGamesData st) (gameListContainer st) els (clickListener st)
         (loadingMessage st) (console st).

Definition withRendered (st : Page) (games : list GameRecord) : Page :=
  mkPage (allGamesData st) (renderedNodes games) (tagFilterContainer st)
         (clickListener st) (detach (loadingMessage st)) (console st).

(** Every record of the catalog has a [tags] sequence. *)
Definition allTagged (catalog : list GameRecord) : bool :=
  forallb (fun g => match tags g with Some _ => true | None => false end) catalog.

(** The tags of a catalog, in reading order, with their repetitions. *)
Definition catalogTags (catalog : list GameRecord) : list string :=
  flat_map (fun g => orEmpty (tags g)) catalog.

(** The members of [uniqueTags] once the first loop of the setup has read
    a catalog in which every record has tags. *)
Definition uniqueTagsOf (catalog : list GameRecord) : JsSet :=
  fold_left add (catalogTags catalog) [].

(** The page after the buttons of the setup have been appended and the
    listener registered. *)
Definition withButtons (st : Page) (buttons : list Element) : Page :=
  mkPage (allGamesData st) (gameListContainer st)
         (tagFilterContainer st ++ buttons)%list true (loadingMessage st)
         (console st).

(** A record without the [tags] key, and a catalog holding it. *)
Definition untagged : GameRecord :=
  mkGame (Some "Pong") None None None None None.

(** A record tagged All next to one that is not. *)
Definition chess : GameRecord :=
  mkGame (Some "Chess") None None None None (Some ["All"; "Board"]).

(** The records of a catalog carrying the key, for a catalog in which every
    record has tags: the [else] branch of the filter logic. *)
Definition carrying (lower : string -> string) (catalog : list GameRecord)
           (key : option string) : list GameRecord :=
  filter (fun g => includes (map lower (orEmpty (tags g))) key) catalog.

(** The exception the [try] block raises before [allGamesData] is
    assigned: a rejected fetch, a non-success status, a body that is not
    JSON. *)
Definition loadError (fetched : FetchResult) : option Exn :=
  match fetched with
  | Rejected => Some NetworkError
  | Response false statusText _ =>
      Some (Error ("Failed to load catalog: " ++ statusText))
  | Response true _ InvalidJson => Some SyntaxError
  | Response true _ (Json _) => None
  | Response true _ (JsonNonArray _) => None
  end.

(** The page once the [catch] block has run on the page [st] the [try]
    block left. *)
Definition withError (st : Page) (e : Exn) : Page :=
  mkPage (allGamesData st) [errorMessage] (tagFilterContainer st)
         (clickListener st) (detach (loadingMessage st))
         (console st ++ [e])%list.

(** The page once the [try] block has stored and rendered the catalog. *)
Definition withCatalog (st : Page) (games : list GameRecord) : Page :=
  mkPage (Records games) (renderedNodes games) (tagFilterContainer st)
         (clickListener st) None (console st).

(** A record with nothing but tags. *)
Definition taggedWith (ts : list string) : GameRecord :=
  mkGame None None None None None (Some ts).

(** The record of the specification's example. *)
Definition snake : GameRecord :=
  mkGame (Some "Snake") None None None None (Some ["arcade"; "classic"]).

(** The strings of a list, each kept at its first occurrence. *)
Fixpoint keepFirst (l : list string) : list string :=
  match l with
  | [] => []
  | x :: r => x :: filter (fun y => negb (String.eqb x y)) (keepFirst r)
  end.

(** [Subseq shown all]: [shown] is [all] with some members left out, the
    others in their order. *)
Inductive Subseq {A : Type} : list A -> list A -> Prop :=
| Subseq_nil : Subseq [] []
| Subseq_keep (x : A) (s l : list A) : Subseq s l -> Subseq (x :: s) (x :: l)
| Subseq_drop (x : A) (s l : list A) : Subseq s l -> Subseq s (x :: l).

(** What clicks leave of an element [x] in the element [y] at its place:
    the label, the key, being a control or not, and the whole element when
    it is no control. *)
Definition sameControl (x y : Element) : Prop :=
  textContent y = textContent x /\
  data_tag y = data_tag x /\
  isControl y = isControl x /\
  (isControl x = false -> y = x).

(** A text field holding the empty string, read as an absent one. *)
Definition blankToAbsent (a : option string) : option string :=
  match a with
  | Some EmptyString => None
  | other => other
  end.

Definition withoutBlanks (g : GameRecord) : GameRecord :=
  mkGame (blankToAbsent (title g)) (blankToAbsent (description g))
         (blankToAbsent (thumbnail g)) (blankToAbsent (link g))
         (blankToAbsent (github_url g)) (tags g).

(** [allGamesData] holds the catalog and the display shows records of it,
    in catalog order. *)
Definition showsCatalogRecords (catalog : list GameRecord) (st : Page) : Prop :=
  allGamesData st = Records catalog /\
  exists shown,
    Subseq shown catalog /\
    gameListContainer st = renderedNodes shown.

(** * Properties *)

(** ** The renderer as a function of its input *)

Lemma detach_idem (loading : option Place) :
  detach (detach loading) = detach loading.
Proof. destruct loading as [[|]|]; reflexivity. Qed.

Lemma forEach_appendCard (games : list GameRecord) (st : Page) :
  forEach games (fun game => appendCard (makeCard game)) st =
  (Returned tt,
   mkPage (allGamesData st)
          (gameListContainer st ++ map (fun g => CardNode (makeCard g)) games)%list
          (tagFilterContainer st) (clickListener st) (loadingMessage st)
          (console st)).
Proof.
  revert st; induction games as [|g games IH]; intros st; simpl.
  - unfold ret. rewrite app_nil_r. destruct st; reflexivity.
  - unfold bind, appendCard. rewrite IH. simpl.
    rewrite <- app_assoc. reflexivity.
Qed.

Lemma renderGameList_run (games : list GameRecord) (st : Page) :
  renderGameList games st =
  (Returned tt,
   mkPage (allGamesData st) (renderedNodes games) (tagFilterContainer st)
          (clickListener st) (detach (loadingMessage st)) (console st)).
Proof.
  unfold renderGameList, bind. simpl.
  destruct games as [|g games]; simpl.
  - unfold setInnerHTML. simpl. rewrite detach_idem. reflexivity.
  - unfold bind, appendCard. simpl. rewrite forEach_appendCard. reflexivity.
Qed.

Lemma cards_renderedNodes (games : list GameRecord) (st : Page) :
  cards (exec (renderGameList games) st) = map makeCard games.
Proof.
  unfold exec, cards. rewrite renderGameList_run. simpl.
  destruct games as [|g games]; [reflexivity|].
  unfold renderedNodes.
  generalize (g :: games). intros l.
  induction l as [|x l IH]; simpl; [reflexivity|]. now rewrite IH.
Qed.

(** C5.  [renderGameList] replaces whatever the container held: its content
    afterwards depends on the input alone, one card per record when there
    is a record.  On the empty input it returns normally and leaves the
    single paragraph "No games found matching the selected filter." and no
    card, so a render of any [S] followed by a render of the empty sequence
    shows exactly that paragraph. *)
Theorem renderGameList_clears_then_no_results :
  let noResultsParagraph :=
    Paragraph None "No games found matching the selected filter." in
  (forall games st,
      gameListContainer (exec (renderGameList games) st) = renderedNodes games) /\
  (forall g games st,
      gameListContainer (exec (renderGameList (g :: games)) st) =
      map (fun game => CardNode (makeCard game)) (g :: games)) /\
  (forall st,
      outcome (renderGameList []) st = Returned tt /\
      gameListContainer (exec (renderGameList []) st) = [noResultsParagraph] /\
      messages (exec (renderGameList []) st) = [noResultsParagraph] /\
      cards (exec (renderGameList []) st) = []) /\
  (forall S st,
      let st' := exec (renderGameList []) (exec (renderGameList S) st) in
      gameListContainer st' = [noResultsParagraph] /\
      messages st' = [noResultsParagraph] /\
      cards st' = []).
Proof.
  intros noResultsParagraph. subst noResultsParagraph.
  split; [|split; [|split]].
  - intros games st. unfold exec. now rewrite renderGameList_run.
  - intros g games st. unfold exec. now rewrite renderGameList_run.
  - intros st. unfold outcome, exec, cards, messages.
    now rewrite renderGameList_run.
  - intros S st st'. subst st'. unfold exec, cards, messages.
    now rewrite !renderGameList_run.
Qed.

(** ** Defaults of the card *)

(** C4.  Rendering never throws and draws one card per record.  The card
    of a record is written out field by field: the title or "Untitled", the
    description or nothing, one badge per tag or none, the thumbnail or the
    placeholder image, the link and the github_url or the inert target "#".
    A record with no field at all gets "Untitled", an empty description, no
    badge, the placeholder and "#" twice.  The record Snake (no thumbnail,
    no link) gets the title Snake, the placeholder, the two badges arcade
    and classic, and a play control on "#". *)
Theorem renderGameList_defaults :
  let placeholder :=
    "data:image/svg+xml;utf8,%0A%20%20%20%20%20%20%3Csvg%20xmlns='http://www.w3.org/2000/svg'%20width='800'%20height='400'%3E%0A%20%20%20%20%20%20%20%20%3Crect%20width='100%25'%20height='100%25'%20fill='%25232c394b'/%3E%0A%20%20%20%20%20%20%20%20%3Ctext%20x='50%25'%20y='50%25'%20dominant-baseline='middle'%20text-anchor='middle'%20fill='%2523b0b0b0'%20font-family='Segoe%20UI,%20Arial'%20font-size='24'%3ENo%20image%3C/text%3E%0A%20%20%20%20%20%20%3C/svg%3E%0A%20%20%20%20" in
  let quote := String "034"%char EmptyString in
  let content (h3 p cardTags : string) :=
    "
            <h3>" ++ h3 ++ "</h3>
            <p>" ++ p ++ "</p>
            <div class=" ++ quote ++ "card-tags" ++ quote ++ ">" ++ cardTags ++ "</div>
        " in
  (forall games st,
      outcome (renderGameList games) st = Returned tt /\
      cards (exec (renderGameList games) st) = map makeCard games) /\
  (forall t d th l gh tg,
      let card := makeCard (mkGame t d th l gh tg) in
      let tagList := match tg with Some ts => ts | None => [] end in
      content_innerHTML card =
        content (match t with Some (String c s) => String c s | _ => "Untitled" end)
                (match d with Some s => s | None => EmptyString end)
                (String.concat EmptyString
                   (map (fun tag => "<span>" ++ tag ++ "</span>") tagList)) /\
      data_tags card = String.concat "," tagList /\
      src (img card) =
        match th with Some (String c s) => String c s | _ => placeholder end /\
      alt (img card) =
        match t with Some (String c s) => String c s | _ => "Game thumbnail" end /\
      href (playBtn card) =
        match l with Some (String c s) => String c s | _ => "#" end /\
      href (srcBtn card) =
        match gh with Some (String c s) => String c s | _ => "#" end /\
      target (playBtn card) = "_blank" /\
      target (srcBtn card) = "_blank") /\
  (let card := makeCard (mkGame None None None None None None) in
   content_innerHTML card =
     "
            <h3>Untitled</h3>
            <p></p>
            <div class=" ++ quote ++ "card-tags" ++ quote ++ "></div>
        " /\
   src (img card) = placeholder /\
   href (playBtn card) = "#" /\
   href (srcBtn card) = "#" /\
   data_tags card = EmptyString) /\
  (forall t d th l gh,
      let g := mkGame t d th l gh None in
      badges g = [] /\ tagsHtml g = EmptyString /\
      data_tags (makeCard g) = EmptyString) /\
  (forall t d th l gh,
      let g := mkGame t d th l gh (Some []) in
      badges g = [] /\ tagsHtml g = EmptyString /\
      data_tags (makeCard g) = EmptyString) /\
  (badges snake = ["<span>arcade</span>"; "<span>classic</span>"] /\
   content_innerHTML (makeCard snake) =
     "
            <h3>Snake</h3>
            <p></p>
            <div class=" ++ quote ++ "card-tags" ++ quote
       ++ "><span>arcade</span><span>classic</span></div>
        " /\
   src (img (makeCard snake)) = placeholder /\
   href (playBtn (makeCard snake)) = "#" /\
   data_tags (makeCard snake) = "arcade,classic").
Proof.
  intros placeholder quote content. subst placeholder quote content.
  split; [|split; [|split; [|split; [|split]]]].
  - intros games st. split; [|apply cards_renderedNodes].
    unfold outcome. now rewrite renderGameList_run.
  - intros t d th l gh tg card tagList. subst card tagList.
    destruct d as [[|c s]|]; destruct tg as [ts|]; repeat split.
  - repeat split.
  - intros t d th l gh g. subst g. repeat split.
  - intros t d th l gh g. subst g. repeat split.
  - repeat split.
Qed.

(** ** The image fallback *)

Lemma dispatchError_card (game : GameRecord) :
  dispatchError (img (makeCard game)) =
  (mkImg "game-thumbnail" (orElse (title game) "Game thumbnail")
         placeholderSvg None,
   [placeholderSvg]).
Proof. reflexivity. Qed.

Lemma loadImage_card (game : GameRecord) (loads : string -> bool) (fuel : nat) :
  loadImage (S (S fuel)) loads (img (makeCard game)) =
  if loads (orElse (thumbnail game) placeholderSvg)
  then Some (img (makeCard game), true, 1)
  else Some (fst (dispatchError (img (makeCard game))),
             loads placeholderSvg, 2).
Proof.
  simpl. destruct (loads (orElse (thumbnail game) placeholderSvg)); [reflexivity|].
  destruct (loads placeholderSvg); reflexivity.
Qed.

(** C7.  On the image of a card the first [error] event assigns the
    placeholder to [src] once and removes the handler; a further [error]
    event on the same image assigns nothing and changes nothing.  On any
    image the callback is idempotent.  The load therefore stops: whatever
    resources fail, also the placeholder itself, the browser makes at most
    two fetches, for every fuel of two or more. *)
Theorem onerror_swaps_once :
  (forall game,
      let first := dispatchError (img (makeCard game)) in
      snd first = [placeholderSvg] /\
      src (fst first) = placeholderSvg /\
      onerror (fst first) = None /\
      dispatchError (fst first) = (fst first, [])) /\
  (forall i : Img,
      let once := fst (dispatchError i) in
      dispatchError once = (once, [])) /\
  (forall game loads fuel,
      exists final shown fetches,
        loadImage (S (S fuel)) loads (img (makeCard game)) =
        Some (final, shown, fetches) /\
        fetches <= 2 /\
        (shown = false -> src final = placeholderSvg /\ onerror final = None)) /\
  (forall game loads fuel,
      loads (orElse (thumbnail game) placeholderSvg) = false ->
      loads placeholderSvg = false ->
      loadImage (S (S fuel)) loads (img (makeCard game)) =
      Some (fst (dispatchError (img (makeCard game))), false, 2)).
Proof.
  split; [|split; [|split]].
  - intros game first. subst first. rewrite dispatchError_card. simpl.
    repeat split.
  - intros i once. subst once. unfold dispatchError.
    destruct (onerror i) as [[]|] eqn:E; simpl.
    + reflexivity.
    + now rewrite E.
  - intros game loads fuel. rewrite loadImage_card.
    destruct (loads (orElse (thumbnail game) placeholderSvg)).
    + eexists _, true, 1. repeat split; [lia | discriminate | discriminate].
    + eexists _, _, 2. repeat split; lia.
  - intros game loads fuel L1 L2. rewrite loadImage_card, L1, L2. reflexivity.
Qed.

Lemma onerror_swaps_once_witness :
  loadImage 2 (fun _ => false) (img (makeCard snake)) =
  Some (fst (dispatchError (img (makeCard snake))), false, 2).
Proof.
  apply (proj2 (proj2 (proj2 onerror_swaps_once)) snake (fun _ => false) 0);
    reflexivity.
Defined.

(** ** Class lists *)

Lemma contains_classRemove_same (cl : list string) (c : string) :
  contains (classRemove cl c) c = false.
Proof.
  unfold contains, classRemove.
  induction cl as [|x cl IH]; simpl; [reflexivity|].
  destruct (String.eqb c x) eqn:E; simpl; [exact IH|].
  now rewrite E.
Qed.

Lemma contains_classRemove_other (cl : list string) (c d : string) :
  c <> d -> contains (classRemove cl c) d = contains cl d.
Proof.
  intros N. unfold contains, classRemove.
  induction cl as [|x cl IH]; simpl; [reflexivity|].
  destruct (String.eqb c x) eqn:E; simpl.
  - apply String.eqb_eq in E. subst x.
    destruct (String.eqb d c) eqn:F; [|exact IH].
    apply String.eqb_eq in F. congruence.
  - now rewrite IH.
Qed.

Lemma contains_classAdd_same (cl : list string) (c : string) :
  contains (classAdd cl c) c = true.
Proof.
  unfold classAdd. destruct (contains cl c) eqn:E; [exact E|].
  unfold contains. rewrite existsb_app. simpl.
  rewrite String.eqb_refl. now rewrite orb_true_r.
Qed.

Lemma contains_classAdd_other (cl : list string) (c d : string) :
  c <> d -> contains (classAdd cl c) d = contains cl d.
Proof.
  intros N. unfold classAdd. destruct (contains cl c); [reflexivity|].
  unfold contains. rewrite existsb_app. simpl.
  destruct (String.eqb d c) eqn:F.
  - apply String.eqb_eq in F. congruence.
  - now rewrite !orb_false_r.
Qed.

Lemma active_neq_tag_filter : "active" <> "tag-filter".
Proof. discriminate. Qed.

Section ControlMarks.

Variable toLowerCase : string -> string.

Lemma isControl_deactivate (e : Element) :
  isControl (deactivate e) = isControl e.
Proof.
  unfold deactivate, isControl.
  destruct (contains (classList e) "tag-filter") eqn:E; simpl; [|exact E].
  rewrite contains_classRemove_other; [exact E | exact active_neq_tag_filter].
Qed.

Lemma isActive_deactivate (e : Element) :
  isControl e = true -> isActive (deactivate e) = false.
Proof.
  unfold deactivate, isControl, isActive. intros ->. simpl.
  apply contains_classRemove_same.
Qed.

Lemma isControl_activate (e : Element) :
  isControl (activate e) = isControl e.
Proof.
  unfold activate, isControl. simpl.
  apply contains_classAdd_other, active_neq_tag_filter.
Qed.

Lemma isActive_activate (e : Element) : isActive (activate e) = true.
Proof. unfold activate, isActive. simpl. apply contains_classAdd_same. Qed.

Lemma nth_error_updateNth {A} (f : A -> A) (l : list A) (n m : nat) :
  nth_error (updateNth n f l) m =
  if Nat.eqb n m then option_map f (nth_error l m) else nth_error l m.
Proof.
  revert n m; induction l as [|x l IH]; intros n m; simpl.
  - destruct m, n; simpl; try reflexivity; destruct (Nat.eqb n m); reflexivity.
  - destruct n, m; simpl; try reflexivity. apply IH.
Qed.

Lemma length_updateNth {A} (f : A -> A) (l : list A) (n : nat) :
  length (updateNth n f l) = length l.
Proof.
  revert n; induction l as [|x l IH]; intros [|n]; simpl; auto.
Qed.

Lemma nth_error_marked (i j : nat) (els : list Element) :
  nth_error (marked i els) j =
  if Nat.eqb i j
  then option_map (fun e => activate (deactivate e)) (nth_error els j)
  else option_map deactivate (nth_error els j).
Proof.
  unfold marked. rewrite nth_error_updateNth, nth_error_map.
  destruct (Nat.eqb i j); [|reflexivity].
  destruct (nth_error els j); reflexivity.
Qed.

Lemma no_active_after_deactivate (els : list Element) :
  filter activeControl (map deactivate els) = [].
Proof.
  induction els as [|e els IH]; simpl; [reflexivity|].
  unfold activeControl at 1. rewrite isControl_deactivate.
  destruct (isControl e) eqn:E; simpl; [|exact IH].
  now rewrite isActive_deactivate.
Qed.

Lemma at_most_one_after_update (f : Element -> Element) (l : list Element) (n : nat) :
  filter activeControl l = [] ->
  length (filter activeControl (updateNth n f l)) <= 1.
Proof.
  revert n; induction l as [|x l IH]; intros n H; simpl in *.
  - destruct n; simpl; lia.
  - destruct (activeControl x) eqn:E; [discriminate|].
    destruct n as [|n]; simpl.
    + rewrite H. destruct (activeControl (f x)); simpl; lia.
    + rewrite E. now apply IH.
Qed.

Lemma marked_at_most_one (i : nat) (els : list Element) :
  length (filter activeControl (marked i els)) <= 1.
Proof. apply at_most_one_after_update, no_active_after_deactivate. Qed.

(** ** The handler as a function of the page *)

Lemma handleTagFilterClick_ignored (i : nat) (st : Page) :
  match nth_error (tagFilterContainer st) i with
  | Some e => isControl e = false
  | None => True
  end ->
  handleTagFilterClick toLowerCase i st = (Returned tt, st).
Proof.
  intros H. unfold handleTagFilterClick, bind, getFilterElements.
  destruct (nth_error (tagFilterContainer st) i) as [e|]; [|reflexivity].
  unfold isControl in H. now rewrite H.
Qed.

Lemma handleTagFilterClick_run (i : nat) (st : Page) (e : Element)
      (catalog : list GameRecord) :
  nth_error (tagFilterContainer st) i = Some e ->
  isControl e = true ->
  allGamesData st = Records catalog ->
  handleTagFilterClick toLowerCase i st =
  let st1 := withFilterElements st (marked i (tagFilterContainer st)) in
  match filteredGames toLowerCase catalog (data_tag e) with
  | Returned games => (Returned tt, withRendered st1 games)
  | Thrown ex => (Thrown ex, st1)
  end.
Proof.
  intros Hn Hc Ha. unfold handleTagFilterClick, bind, getFilterElements.
  rewrite Hn. unfold isControl in Hc. rewrite Hc. simpl.
  unfold withRendered, withFilterElements, marked, lift. rewrite !Ha.
  destruct (filteredGames toLowerCase catalog (data_tag e)); simpl;
    [|reflexivity].
  now rewrite renderGameList_run.
Qed.

(** What the renderer does on a value that is no array, and what it
    leaves alone. *)
Lemma renderGameListNonArray_run (v : NonArray) (st : Page) :
  renderGameListNonArray v st =
  match lengthIsZero v with
  | Returned true =>
      (Returned tt,
       mkPage (allGamesData st) [noResults] (tagFilterContainer st)
              (clickListener st) (detach (loadingMessage st)) (console st))
  | _ =>
      (Thrown TypeError,
       mkPage (allGamesData st) [] (tagFilterContainer st)
              (clickListener st) (detach (loadingMessage st)) (console st))
  end.
Proof.
  unfold renderGameListNonArray, bind, lift, setInnerHTML, throw. simpl.
  destruct (lengthIsZero v) as [[|]|ex] eqn:E; simpl.
  - now rewrite detach_idem.
  - reflexivity.
  - destruct v; simpl in E; try discriminate E. now injection E as <-.
Qed.

(** A click on a control, whatever [allGamesData] holds: the marks are
    set, and nothing but the marks and the game list is written. *)
Lemma handleTagFilterClick_any (i : nat) (st : Page) (e : Element) :
  nth_error (tagFilterContainer st) i = Some e ->
  isControl e = true ->
  exists o st',
    handleTagFilterClick toLowerCase i st = (o, st') /\
    tagFilterContainer st' = marked i (tagFilterContainer st) /\
    allGamesData st' = allGamesData st /\
    clickListener st' = clickListener st /\
    console st' = console st.
Proof.
  intros Hn Hc.
  destruct (allGamesData st) as [catalog|v] eqn:Ha.
  - rewrite (handleTagFilterClick_run i st e catalog Hn Hc Ha). simpl.
    destruct (filteredGames toLowerCase catalog (data_tag e));
      eexists _, _; (split; [reflexivity|]); simpl; rewrite ?Ha; auto.
  - unfold handleTagFilterClick, bind, getFilterElements.
    rewrite Hn. unfold isControl in Hc. rewrite Hc. simpl. rewrite Ha.
    destruct (isAll (data_tag e)).
    + rewrite renderGameListNonArray_run.
      destruct (lengthIsZero v) as [[|]|ex];
        eexists _, _; (split; [reflexivity|]); simpl; rewrite ?Ha; auto.
    + eexists _, _; (split; [reflexivity|]); simpl; rewrite ?Ha; auto.
Qed.

End ControlMarks.

(** ** At most one active control *)

Section ActiveInvariant.

Variable toLowerCase : string -> string.

Lemma exactly_one_after_update (f : Element -> Element) (l : list Element)
      (n : nat) (x : Element) :
  filter activeControl l = [] ->
  nth_error l n = Some x ->
  activeControl (f x) = true ->
  length (filter activeControl (updateNth n f l)) = 1.
Proof.
  revert n; induction l as [|y l IH]; intros n H Hn Hf; simpl in *.
  - destruct n; discriminate.
  - destruct (activeControl y) eqn:E; [discriminate|].
    destruct n as [|n]; simpl in *.
    + injection Hn as ->. now rewrite Hf, H.
    + rewrite E. now apply IH.
Qed.

Lemma marked_exactly_one (i : nat) (els : list Element) (e : Element) :
  nth_error els i = Some e ->
  isControl e = true ->
  length (filter activeControl (marked i els)) = 1.
Proof.
  intros Hn Hc. unfold marked.
  apply exactly_one_after_update with (x := deactivate e).
  - apply no_active_after_deactivate.
  - rewrite nth_error_map, Hn. reflexivity.
  - unfold activeControl.
    now rewrite isControl_activate, isControl_deactivate, Hc, isActive_activate.
Qed.

Lemma handleTagFilterClick_elements (i : nat) (st : Page) (e : Element) :
  nth_error (tagFilterContainer st) i = Some e ->
  isControl e = true ->
  tagFilterContainer (exec (handleTagFilterClick toLowerCase i) st) =
  marked i (tagFilterContainer st).
Proof.
  intros Hn Hc. unfold exec.
  destruct (handleTagFilterClick_any toLowerCase i st e Hn Hc)
    as (o & st' & E & T & _).
  now rewrite E.
Qed.

Lemma click_returns (i : nat) (st : Page) :
  exists st',
    click toLowerCase i st = (Returned tt, st') /\
    (tagFilterContainer st' = tagFilterContainer st \/
     tagFilterContainer st' = marked i (tagFilterContainer st)).
Proof.
  unfold click. destruct (clickListener st); [|eexists; split; [reflexivity|now left]].
  unfold tryCatch.
  destruct (nth_error (tagFilterContainer st) i) as [e|] eqn:Hn.
  - destruct (isControl e) eqn:Hc.
    + destruct (handleTagFilterClick_any toLowerCase i st e Hn Hc)
        as (o & st' & E & T & _).
      rewrite E. destruct o as [[]|ex]; simpl;
        eexists; (split; [reflexivity|right; exact T]).
    + rewrite handleTagFilterClick_ignored by now rewrite Hn.
      eexists; split; [reflexivity|now left].
  - rewrite handleTagFilterClick_ignored by now rewrite Hn.
    eexists; split; [reflexivity|now left].
Qed.

Lemma click_keeps_invariant (i : nat) (st : Page) :
  length (activeControls st) <= 1 ->
  length (activeControls (exec (click toLowerCase i) st)) <= 1.
Proof.
  intros H. destruct (click_returns i st) as (st' & E & [T|T]).
  - unfold exec, activeControls. rewrite E. simpl. now rewrite T.
  - unfold exec, activeControls. rewrite E. simpl. rewrite T.
    apply marked_at_most_one.
Qed.

Lemma clicks_keep_invariant (targets : list nat) (st : Page) :
  length (activeControls st) <= 1 ->
  outcome (forEach targets (click toLowerCase)) st = Returned tt /\
  length (activeControls (exec (forEach targets (click toLowerCase)) st)) <= 1.
Proof.
  revert st; induction targets as [|i targets IH]; intros st H; simpl.
  - split; [reflexivity|exact H].
  - pose proof (click_keeps_invariant i st H) as K.
    destruct (click_returns i st) as (st' & E & _).
    unfold exec in K. rewrite E in K. simpl in K.
    unfold outcome, exec, bind. rewrite E.
    apply (IH st' K).
Qed.

End ActiveInvariant.

(** ** The set of tags *)

Lemma has_In (s : JsSet) (x : string) : has s x = true <-> In x s.
Proof.
  unfold has. rewrite existsb_exists. split.
  - intros (y & Hy & E). apply String.eqb_eq in E. now subst.
  - intros H. exists x. split; [exact H|apply String.eqb_refl].
Qed.

Lemma In_add (s : JsSet) (x y : string) : In y (add s x) <-> In y s \/ y = x.
Proof.
  unfold add. destruct (has s x) eqn:E.
  - apply has_In in E. split; [now left|]. intros [H| ->]; assumption.
  - rewrite in_app_iff. simpl. split.
    + intros [H|[H|[]]]; [now left|now right].
    + intros [H| ->]; [now left|right; now left].
Qed.

Lemma NoDup_add (s : JsSet) (x : string) : NoDup s -> NoDup (add s x).
Proof.
  intros N. unfold add. destruct (has s x) eqn:E; [exact N|].
  assert (~ In x s) as NI.
  { intros H. apply has_In in H. congruence. }
  clear E. induction N as [|y l Hy N IH]; simpl.
  - constructor; [intros []|constructor].
  - constructor.
    + rewrite in_app_iff. simpl. intros [H|[H|[]]]; [now apply Hy|].
      subst. apply NI. now left.
    + apply IH. intros H. apply NI. now right.
Qed.

Lemma In_fold_add (ts : list string) (acc : JsSet) (x : string) :
  In x (fold_left add ts acc) <-> In x acc \/ In x ts.
Proof.
  revert acc; induction ts as [|t ts IH]; intros acc; simpl.
  - tauto.
  - rewrite IH, In_add. split.
    + intros [[H|H]|H]; auto.
    + intros [H|[H|H]]; auto.
Qed.

Lemma NoDup_fold_add (ts : list string) (acc : JsSet) :
  NoDup acc -> NoDup (fold_left add ts acc).
Proof.
  revert acc; induction ts as [|t ts IH]; intros acc N; simpl; [exact N|].
  apply IH, NoDup_add, N.
Qed.

Lemma collectTags_tagged (games : list GameRecord) (acc : JsSet) :
  allTagged games = true ->
  collectTags games acc = Returned (fold_left add (catalogTags games) acc).
Proof.
  revert acc; induction games as [|g games IH]; intros acc H; simpl in *.
  - reflexivity.
  - destruct (tags g) as [ts|]; [|discriminate]. simpl in *.
    rewrite fold_left_app. now apply IH.
Qed.

Lemma collectTags_untagged (games : list GameRecord) (acc : JsSet) :
  allTagged games = false -> collectTags games acc = Thrown TypeError.
Proof.
  revert acc; induction games as [|g games IH]; intros acc H; simpl in *.
  - discriminate.
  - destruct (tags g) as [ts|]; [|reflexivity]. simpl in *. now apply IH.
Qed.

Section Setup.

Variable toLowerCase : string -> string.

Lemma forEach_appendButton (ts : list string) (st : Page) :
  forEach ts (fun tag => appendButton (makeButton toLowerCase tag)) st =
  (Returned tt,
   mkPage (allGamesData st) (gameListContainer st)
          (tagFilterContainer st ++ map (makeButton toLowerCase) ts)%list
          (clickListener st) (loadingMessage st) (console st)).
Proof.
  revert st; induction ts as [|t ts IH]; intros st; simpl.
  - unfold ret. rewrite app_nil_r. destruct st; reflexivity.
  - unfold bind, appendButton. rewrite IH. simpl.
    rewrite <- app_assoc. reflexivity.
Qed.

Lemma populateTagFilters_run (games : list GameRecord) (st : Page) :
  populateTagFilters toLowerCase games st =
  match collectTags games [] with
  | Returned u => (Returned tt, withButtons st (map (makeButton toLowerCase) u))
  | Thrown e => (Thrown e, st)
  end.
Proof.
  unfold populateTagFilters, bind, lift.
  destruct (collectTags games []) as [u|e]; [|reflexivity].
  rewrite forEach_appendButton. reflexivity.
Qed.

Lemma textContent_makeButton (ts : list string) :
  map textContent (map (makeButton toLowerCase) ts) = ts.
Proof.
  induction ts as [|t ts IH]; simpl; [reflexivity|]. now rewrite IH.
Qed.

(** C8.  On a catalog in which every record has tags the setup returns
    normally and appends, after the elements already there, one button per
    member of the tag set: the labels have no repetition and are exactly the
    tag strings of the catalog (two spellings of a tag are two strings),
    each label occurs once, and each button carries the class [tag-filter]
    alone, its tag as label and the lower-cased label as key. *)
Theorem populateTagFilters_one_control_per_tag
        (catalog : list GameRecord) (st : Page) :
  allTagged catalog = true ->
  let created := map (makeButton toLowerCase) (uniqueTagsOf catalog) in
  outcome (populateTagFilters toLowerCase catalog) st = Returned tt /\
  tagFilterContainer (exec (populateTagFilters toLowerCase catalog) st) =
    (tagFilterContainer st ++ created)%list /\
  NoDup (map textContent created) /\
  (forall t, In t (map textContent created) <-> In t (catalogTags catalog)) /\
  (forall t, In t (catalogTags catalog) ->
             count_occ string_dec (map textContent created) t = 1) /\
  (forall b, In b created ->
             classList b = ["tag-filter"] /\
             data_tag b = Some (toLowerCase (textContent b))).
Proof.
  intros H created.
  assert (NoDup (uniqueTagsOf catalog)) as ND.
  { apply NoDup_fold_add. constructor. }
  assert (forall t, In t (uniqueTagsOf catalog) <-> In t (catalogTags catalog)) as IN.
  { intros t. unfold uniqueTagsOf. rewrite In_fold_add. simpl. tauto. }
  unfold outcome, exec. rewrite populateTagFilters_run.
  rewrite (collectTags_tagged catalog [] H). simpl.
  subst created. rewrite textContent_makeButton.
  split; [reflexivity|split; [reflexivity|split; [exact ND|split; [exact IN|split]]]].
  - intros t Ht. apply (proj1 (NoDup_count_occ' string_dec _) ND).
    now apply IN.
  - intros b Hb. apply in_map_iff in Hb. destruct Hb as (t & <- & _).
    split; reflexivity.
Qed.

End Setup.

(** ** The filter logic *)

Section FilterLogic.

Variable toLowerCase : string -> string.

Lemma includes_In (l : list string) (x : string) :
  includes l (Some x) = true <-> In x l.
Proof.
  simpl. rewrite existsb_exists. split.
  - intros (y & Hy & E). apply String.eqb_eq in E. now subst.
  - intros H. exists x. split; [exact H|apply String.eqb_refl].
Qed.

Lemma filterGames_tagged (games : list GameRecord) (key : option string) :
  allTagged games = true ->
  filterGames toLowerCase games key = Returned (carrying toLowerCase games key).
Proof.
  induction games as [|g games IH]; intros H; simpl in *; [reflexivity|].
  destruct (tags g) as [ts|]; [|discriminate]. simpl in *.
  rewrite (IH H). reflexivity.
Qed.

Lemma filterGames_untagged (games : list GameRecord) (key : option string) :
  allTagged games = false ->
  filterGames toLowerCase games key = Thrown TypeError.
Proof.
  induction games as [|g games IH]; intros H; simpl in *; [discriminate|].
  destruct (tags g) as [ts|]; [|reflexivity]. simpl in *.
  now rewrite (IH H).
Qed.

Lemma carrying_specSubset (catalog : list GameRecord) (t : string) :
  carrying toLowerCase catalog (Some (toLowerCase t)) =
  specSubset toLowerCase catalog t.
Proof.
  unfold carrying, specSubset. apply filter_ext. intros g.
  destruct (in_dec string_dec (toLowerCase t)
                   (map toLowerCase (orEmpty (tags g)))) as [H|H].
  - now apply includes_In.
  - destruct (includes (map toLowerCase (orEmpty (tags g)))
                       (Some (toLowerCase t))) eqn:E; [|reflexivity].
    apply includes_In in E. contradiction.
Qed.

Lemma isAll_true (key : option string) : isAll key = true <-> key = Some "all".
Proof.
  destruct key as [s|]; simpl.
  - rewrite String.eqb_eq. split; [now intros ->|now intros [= ->]].
  - split; discriminate.
Qed.

Lemma isAll_lower (t : string) :
  toLowerCase t <> "all" -> isAll (Some (toLowerCase t)) = false.
Proof.
  intros N. destruct (isAll (Some (toLowerCase t))) eqn:E; [|reflexivity].
  apply isAll_true in E. congruence.
Qed.

(** A click on a control whose key is [key], when the filter logic returns
    [games]: the handler returns and the container shows [games]. *)
Lemma handleTagFilterClick_shows (i : nat) (st : Page) (e : Element)
      (catalog games : list GameRecord) :
  nth_error (tagFilterContainer st) i = Some e ->
  isControl e = true ->
  allGamesData st = Records catalog ->
  filteredGames toLowerCase catalog (data_tag e) = Returned games ->
  outcome (handleTagFilterClick toLowerCase i) st = Returned tt /\
  gameListContainer (exec (handleTagFilterClick toLowerCase i) st) =
    renderedNodes games /\
  allGamesData (exec (handleTagFilterClick toLowerCase i) st) = Records catalog.
Proof.
  intros Hn Hc Ha Hf. unfold outcome, exec.
  rewrite (handleTagFilterClick_run toLowerCase i st e catalog Hn Hc Ha). simpl.
  rewrite Hf. simpl. auto.
Qed.

Lemma handleTagFilterClick_throws (i : nat) (st : Page) (e : Element)
      (catalog : list GameRecord) (ex : Exn) :
  nth_error (tagFilterContainer st) i = Some e ->
  isControl e = true ->
  allGamesData st = Records catalog ->
  filteredGames toLowerCase catalog (data_tag e) = Thrown ex ->
  outcome (handleTagFilterClick toLowerCase i) st = Thrown ex /\
  gameListContainer (exec (handleTagFilterClick toLowerCase i) st) =
    gameListContainer st.
Proof.
  intros Hn Hc Ha Hf. unfold outcome, exec.
  rewrite (handleTagFilterClick_run toLowerCase i st e catalog Hn Hc Ha). simpl.
  rewrite Hf. simpl. auto.
Qed.

Lemma created_control (catalog : list GameRecord) (t : string) (st : Page) :
  allTagged catalog = true ->
  In t (catalogTags catalog) ->
  exists i,
    nth_error (tagFilterContainer (exec (populateTagFilters toLowerCase catalog) st)) i =
    Some (makeButton toLowerCase t).
Proof.
  intros H Ht. apply In_nth_error.
  unfold exec. rewrite populateTagFilters_run.
  rewrite (collectTags_tagged catalog [] H). simpl.
  apply in_or_app. right. apply in_map.
  apply In_fold_add. now right.
Qed.

(** C1, as amended.  On a catalog in which every record has tags, for a tag
    [t] of the catalog whose lower-cased form is not "all": the setup has
    created a control keyed by the lower-cased [t]; the filter logic for
    that key returns exactly the records whose lower-cased tags contain the
    lower-cased [t], in catalog order; a click on a control with that key
    returns and shows that subset, whatever was shown before.  The key
    "all" gives the whole catalog, on every catalog. *)
Theorem filter_activation_subset (catalog : list GameRecord) (t : string) :
  allTagged catalog = true ->
  In t (catalogTags catalog) ->
  toLowerCase t <> "all" ->
  (forall st, exists i,
      nth_error (tagFilterContainer
                   (exec (populateTagFilters toLowerCase catalog) st)) i =
      Some (makeButton toLowerCase t)) /\
  filteredGames toLowerCase catalog (Some (toLowerCase t)) =
    Returned (specSubset toLowerCase catalog t) /\
  (forall st i e,
      allGamesData st = Records catalog ->
      nth_error (tagFilterContainer st) i = Some e ->
      isControl e = true ->
      data_tag e = Some (toLowerCase t) ->
      outcome (handleTagFilterClick toLowerCase i) st = Returned tt /\
      gameListContainer (exec (handleTagFilterClick toLowerCase i) st) =
        renderedNodes (specSubset toLowerCase catalog t) /\
      allGamesData (exec (handleTagFilterClick toLowerCase i) st) =
        Records catalog) /\
  (forall all, filteredGames toLowerCase all (Some "all") = Returned all) /\
  (forall st all i e,
      allGamesData st = Records all ->
      nth_error (tagFilterContainer st) i = Some e ->
      isControl e = true ->
      data_tag e = Some "all" ->
      outcome (handleTagFilterClick toLowerCase i) st = Returned tt /\
      gameListContainer (exec (handleTagFilterClick toLowerCase i) st) =
        renderedNodes all /\
      allGamesData (exec (handleTagFilterClick toLowerCase i) st) =
        Records all).
Proof.
  intros H Ht N.
  assert (filteredGames toLowerCase catalog (Some (toLowerCase t)) =
          Returned (specSubset toLowerCase catalog t)) as F.
  { unfold filteredGames. rewrite (isAll_lower t N).
    rewrite (filterGames_tagged catalog _ H). now rewrite carrying_specSubset. }
  split; [|split; [|split; [|split]]].
  - intros st. now apply created_control.
  - exact F.
  - intros st i e Hcat Hn Hc Hk.
    apply (handleTagFilterClick_shows i st e catalog _ Hn Hc Hcat).
    now rewrite Hk.
  - reflexivity.
  - intros st all i e Hcat Hn Hc Hk.
    apply (handleTagFilterClick_shows i st e all _ Hn Hc Hcat).
    now rewrite Hk.
Qed.

(** C9.  On a catalog with a record that has no tags, the filter logic
    throws for every key other than "all", and a click on a control with
    such a key throws from the handler before anything is rendered; the key
    "all" returns the whole catalog and its click renders it. *)
Theorem activation_faults_on_untagged (catalog : list GameRecord) :
  allTagged catalog = false ->
  (forall key, isAll key = false ->
               filteredGames toLowerCase catalog key = Thrown TypeError) /\
  (forall st i e,
      allGamesData st = Records catalog ->
      nth_error (tagFilterContainer st) i = Some e ->
      isControl e = true ->
      isAll (data_tag e) = false ->
      outcome (handleTagFilterClick toLowerCase i) st = Thrown TypeError /\
      gameListContainer (exec (handleTagFilterClick toLowerCase i) st) =
        gameListContainer st) /\
  filteredGames toLowerCase catalog (Some "all") = Returned catalog /\
  (forall st i e,
      allGamesData st = Records catalog ->
      nth_error (tagFilterContainer st) i = Some e ->
      isControl e = true ->
      data_tag e = Some "all" ->
      outcome (handleTagFilterClick toLowerCase i) st = Returned tt /\
      gameListContainer (exec (handleTagFilterClick toLowerCase i) st) =
        renderedNodes catalog).
Proof.
  intros H.
  assert (forall key, isAll key = false ->
                      filteredGames toLowerCase catalog key = Thrown TypeError) as F.
  { intros key K. unfold filteredGames. rewrite K.
    now apply filterGames_untagged. }
  split; [exact F|split; [|split]].
  - intros st i e Hcat Hn Hc K.
    apply (handleTagFilterClick_throws i st e catalog _ Hn Hc Hcat).
    now apply F.
  - reflexivity.
  - intros st i e Hcat Hn Hc Hk.
    destruct (handleTagFilterClick_shows i st e catalog catalog Hn Hc Hcat)
      as (A & B & _); [now rewrite Hk|]. now split.
Qed.

(** C10, as amended.  On a catalog in which every record has tags and
    which holds a tag [t] whose lower-cased form is "all": the setup creates
    a control labelled [t] and keyed "all"; a click on a control keyed "all"
    shows the whole catalog; that differs from the records carrying [t] as
    soon as one record does not carry it; every other key selects the
    records carrying that key; and no key selects the records carrying [t]
    on every catalog. *)
Theorem all_tag_is_shadowed (catalog : list GameRecord) (t : string) :
  allTagged catalog = true ->
  In t (catalogTags catalog) ->
  toLowerCase t = "all" ->
  (forall st, exists i,
      nth_error (tagFilterContainer
                   (exec (populateTagFilters toLowerCase catalog) st)) i =
      Some (mkElement ["tag-filter"] t (Some "all"))) /\
  (forall st i e,
      allGamesData st = Records catalog ->
      nth_error (tagFilterContainer st) i = Some e ->
      isControl e = true ->
      data_tag e = Some "all" ->
      outcome (handleTagFilterClick toLowerCase i) st = Returned tt /\
      gameListContainer (exec (handleTagFilterClick toLowerCase i) st) =
        renderedNodes catalog) /\
  ((exists g, In g catalog /\
              ~ In "all" (map toLowerCase (orEmpty (tags g)))) ->
   filteredGames toLowerCase catalog (Some "all") <>
   Returned (specSubset toLowerCase catalog t)) /\
  (forall key, isAll key = false ->
               filteredGames toLowerCase catalog key =
               Returned (carrying toLowerCase catalog key)) /\
  (forall key, exists other,
      allTagged other = true /\
      In t (catalogTags other) /\
      filteredGames toLowerCase other key <>
      Returned (specSubset toLowerCase other t)).
Proof.
  intros H Ht L.
  split; [|split; [|split; [|split]]].
  - intros st. destruct (created_control catalog t st H Ht) as (i & Hi).
    exists i. rewrite Hi. unfold makeButton. now rewrite L.
  - intros st i e Hcat Hn Hc Hk.
    destruct (handleTagFilterClick_shows i st e catalog catalog Hn Hc Hcat)
      as (A & B & _); [now rewrite Hk|]. now split.
  - intros (g & Hg & Hno) E. simpl in E. injection E as E.
    rewrite E in Hg. unfold specSubset in Hg.
    apply filter_In in Hg. destruct Hg as (_ & Hg).
    rewrite L in Hg.
    destruct (in_dec string_dec "all" (map toLowerCase (orEmpty (tags g))));
      [contradiction|discriminate].
  - intros key K. unfold filteredGames. rewrite K.
    now apply filterGames_tagged.
  - intros key.
    assert (forall rest, specSubset toLowerCase (taggedWith [t] :: rest) t =
                         taggedWith [t] :: specSubset toLowerCase rest t) as S1.
    { intros rest. unfold specSubset. cbn [filter].
      destruct (in_dec string_dec (toLowerCase t)
                       (map toLowerCase (orEmpty (tags (taggedWith [t])))))
        as [_|n]; [reflexivity|].
      exfalso. apply n. simpl. now left. }
    destruct (isAll key) eqn:K.
    + exists [taggedWith [t]; taggedWith []].
      split; [reflexivity|split; [simpl; auto|]].
      unfold filteredGames. rewrite K, S1.
      intros E. inversion E.
    + exists [taggedWith [t]].
      split; [reflexivity|split; [simpl; auto|]].
      unfold filteredGames. rewrite K, S1.
      destruct key as [k|]; simpl; [|discriminate].
      destruct (String.eqb k (toLowerCase t)) eqn:E; simpl; [|discriminate].
      apply String.eqb_eq in E. subst k. simpl in K.
      rewrite L in K. discriminate K.
Qed.

End FilterLogic.

(** ** The loader *)

Section Loader.

Variable toLowerCase : string -> string.

Lemma loadGameCatalog_try_error (fetched : FetchResult) (e : Exn) (st : Page) :
  loadError fetched = Some e ->
  loadGameCatalog_try toLowerCase fetched st = (Thrown e, st).
Proof.
  destruct fetched as [|[|] statusText [|games|v]]; simpl; intros [= <-];
    reflexivity.
Qed.

Lemma loadGameCatalog_error (fetched : FetchResult) (e : Exn) (st : Page) :
  loadError fetched = Some e ->
  loadGameCatalog toLowerCase fetched st = (Returned tt, withError st e).
Proof.
  intros H. unfold loadGameCatalog, tryCatch.
  now rewrite (loadGameCatalog_try_error fetched e st H).
Qed.

Lemma loadGameCatalog_try_json (statusText : string)
      (games : list GameRecord) (st : Page) :
  loadGameCatalog_try toLowerCase (Response true statusText (Json games)) st =
  match collectTags games [] with
  | Returned u =>
      (Returned tt,
       withButtons (withCatalog st games) (map (makeButton toLowerCase) u))
  | Thrown e => (Thrown e, withCatalog st games)
  end.
Proof.
  unfold loadGameCatalog_try, bind, lift, json, setAllGamesData,
    removeLoadingMessage, getAllGamesData, renderGameListAny,
    populateTagFiltersAny.
  cbn [negb allGamesData]. rewrite renderGameList_run.
  cbn [allGamesData]. rewrite populateTagFilters_run.
  destruct (collectTags games []); reflexivity.
Qed.

Lemma loadGameCatalog_try_nonArray (statusText : string) (v : NonArray)
      (st : Page) :
  loadGameCatalog_try toLowerCase (Response true statusText (JsonNonArray v)) st =
  (Thrown TypeError,
   mkPage (NotArray v)
          (match lengthIsZero v with
           | Returned true => [noResults]
           | _ => []
           end)
          (tagFilterContainer st) (clickListener st) None (console st)).
Proof.
  unfold loadGameCatalog_try, bind, lift, json, setAllGamesData,
    removeLoadingMessage, getAllGamesData, renderGameListAny,
    populateTagFiltersAny.
  cbn [negb allGamesData]. rewrite renderGameListNonArray_run.
  destruct (lengthIsZero v) as [[|]|ex]; reflexivity.
Qed.

(** C2, as amended.  When the fetch is rejected, resolves with a
    non-success status or delivers a body that is not JSON, the [try]
    block throws before it has touched the page, and [loadGameCatalog]
    returns with the single red error paragraph in the container, no card,
    the error on the console and [allGamesData] as it was.  From the
    initial page the catalog is therefore still the empty array, and a
    click on any filter control would filter the empty catalog and show the
    no-results paragraph.  When the body is JSON but no array, the display
    is the same single error paragraph and no card, but the parsed value
    has been stored in [allGamesData]. *)
Theorem load_failure_shows_error (fetched : FetchResult) (e : Exn) :
  loadError fetched = Some e ->
  let errorParagraph :=
    Paragraph (Some "color:red;")
      "Error: Could not load game catalog. Check console for details." in
  (forall st,
      outcome (loadGameCatalog_try toLowerCase fetched) st = Thrown e /\
      exec (loadGameCatalog_try toLowerCase fetched) st = st) /\
  (forall st,
      let st' := exec (loadGameCatalog toLowerCase fetched) st in
      outcome (loadGameCatalog toLowerCase fetched) st = Returned tt /\
      gameListContainer st' = [errorParagraph] /\
      messages st' = [errorParagraph] /\
      cards st' = [] /\
      allGamesData st' = allGamesData st /\
      tagFilterContainer st' = tagFilterContainer st /\
      clickListener st' = clickListener st /\
      console st' = (console st ++ [e])%list) /\
  (forall markup loading,
      let st' := exec (loadGameCatalog toLowerCase fetched)
                      (initialPage markup loading) in
      allGamesData st' = Records [] /\
      (forall key, filteredGames toLowerCase [] key = Returned []) /\
      (forall i el,
          nth_error (tagFilterContainer st') i = Some el ->
          isControl el = true ->
          outcome (handleTagFilterClick toLowerCase i) st' = Returned tt /\
          gameListContainer (exec (handleTagFilterClick toLowerCase i) st') =
            [Paragraph None "No games found matching the selected filter."])) /\
  (forall statusText v st,
      let wrong := Response true statusText (JsonNonArray v) in
      let st' := exec (loadGameCatalog toLowerCase wrong) st in
      outcome (loadGameCatalog_try toLowerCase wrong) st = Thrown TypeError /\
      outcome (loadGameCatalog toLowerCase wrong) st = Returned tt /\
      gameListContainer st' = [errorParagraph] /\
      messages st' = [errorParagraph] /\
      cards st' = [] /\
      allGamesData st' = NotArray v /\
      tagFilterContainer st' = tagFilterContainer st /\
      clickListener st' = clickListener st /\
      console st' = (console st ++ [TypeError])%list).
Proof.
  intros H errorParagraph. subst errorParagraph.
  split; [|split; [|split]].
  - intros st. unfold outcome, exec.
    now rewrite (loadGameCatalog_try_error fetched e st H).
  - intros st st'. subst st'. unfold outcome, exec, messages, cards.
    rewrite (loadGameCatalog_error fetched e st H). simpl. repeat split.
  - intros markup loading st'. subst st'. unfold exec.
    rewrite (loadGameCatalog_error fetched e _ H).
    cbn [snd]. set (st' := withError (initialPage markup loading) e).
    assert (forall key, filteredGames toLowerCase [] key = Returned []) as F.
    { intros key. unfold filteredGames. now destruct (isAll key). }
    split; [reflexivity|split; [exact F|]].
    intros i el Hn Hc.
    destruct (handleTagFilterClick_shows toLowerCase i st' el [] [] Hn Hc)
      as (A & B & _); [reflexivity|apply F|]. now split.
  - intros statusText v st wrong st'. subst st' wrong.
    unfold outcome, exec, messages, cards, loadGameCatalog, tryCatch.
    rewrite loadGameCatalog_try_nonArray. simpl. repeat split.
Qed.

(** C3, as amended.  On a catalog with a record that has no tags the setup
    throws a [TypeError] out of [populateTagFilters], having created no
    control and registered no listener, while the renderer returns and
    draws every card.  The fault does not go unhandled: the call sits in
    the [try] block of the loader, whose [catch] logs it and replaces the
    cards just drawn by the load error paragraph; the catalog stays in
    [allGamesData]. *)
Theorem setup_faults_on_untagged (catalog : list GameRecord) :
  allTagged catalog = false ->
  (forall st,
      outcome (populateTagFilters toLowerCase catalog) st = Thrown TypeError /\
      exec (populateTagFilters toLowerCase catalog) st = st) /\
  (forall st,
      outcome (renderGameList catalog) st = Returned tt /\
      cards (exec (renderGameList catalog) st) = map makeCard catalog) /\
  (forall statusText st,
      let fetched := Response true statusText (Json catalog) in
      let st' := exec (loadGameCatalog toLowerCase fetched) st in
      outcome (loadGameCatalog_try toLowerCase fetched) st = Thrown TypeError /\
      outcome (loadGameCatalog toLowerCase fetched) st = Returned tt /\
      gameListContainer st' = [errorMessage] /\
      cards st' = [] /\
      console st' = (console st ++ [TypeError])%list /\
      tagFilterContainer st' = tagFilterContainer st /\
      clickListener st' = clickListener st /\
      allGamesData st' = Records catalog).
Proof.
  intros H. split; [|split].
  - intros st. unfold outcome, exec. rewrite populateTagFilters_run.
    now rewrite (collectTags_untagged catalog [] H).
  - intros st. split; [|apply cards_renderedNodes].
    unfold outcome. now rewrite renderGameList_run.
  - intros statusText st fetched st'. subst st' fetched.
    unfold outcome, exec, cards, loadGameCatalog, tryCatch.
    rewrite loadGameCatalog_try_json.
    rewrite (collectTags_untagged catalog [] H). simpl. repeat split.
Qed.

End Loader.

(** ** The marks over a session *)

Section Session.

Variable toLowerCase : string -> string.

Lemma click_recognized (i : nat) (st : Page) (e : Element) :
  clickListener st = true ->
  nth_error (tagFilterContainer st) i = Some e ->
  isControl e = true ->
  exists st',
    click toLowerCase i st = (Returned tt, st') /\
    tagFilterContainer st' = marked i (tagFilterContainer st).
Proof.
  intros Hl Hn Hc. unfold click, tryCatch. rewrite Hl.
  destruct (handleTagFilterClick_any toLowerCase i st e Hn Hc)
    as (o & st' & E & T & _).
  rewrite E. destruct o as [[]|ex]; simpl;
    eexists; (split; [reflexivity|exact T]).
Qed.

Lemma created_buttons_inactive (ts : list string) :
  filter activeControl (map (makeButton toLowerCase) ts) = [].
Proof. induction ts as [|t ts IH]; simpl; [reflexivity|exact IH]. Qed.

Lemma loadGameCatalog_activeControls (fetched : FetchResult) (st : Page) :
  activeControls (exec (loadGameCatalog toLowerCase fetched) st) =
  activeControls st.
Proof.
  destruct (loadError fetched) as [e|] eqn:L.
  - unfold exec. now rewrite (loadGameCatalog_error toLowerCase fetched e st L).
  - destruct fetched as [|[|] statusText [|games|v]]; try discriminate L.
    + unfold exec, loadGameCatalog, tryCatch.
      rewrite loadGameCatalog_try_json.
      destruct (collectTags games []) as [u|ex]; simpl; [|reflexivity].
      unfold activeControls. simpl.
      now rewrite filter_app, created_buttons_inactive, app_nil_r.
    + unfold exec, loadGameCatalog, tryCatch.
      now rewrite loadGameCatalog_try_nonArray.
Qed.

(** C6.  A click whose target is not an element carrying the class
    [tag-filter] leaves the page as it is.  A click on a control gives the
    filter container the marks [marked]: among the controls exactly the
    clicked one is active, also when the filter step throws afterwards.  So
    a page with at most one active control has at most one after every
    sequence of clicks, none of which stops the sequence; so has every
    page after a click on a control followed by any clicks, whatever was
    marked before; and so has the page the loader leaves from markup with
    at most one active control, after any clicks. *)
Theorem at_most_one_active_control :
  (forall i st,
      match nth_error (tagFilterContainer st) i with
      | Some e => isControl e = false
      | None => True
      end ->
      handleTagFilterClick toLowerCase i st = (Returned tt, st)) /\
  (forall i st e,
      nth_error (tagFilterContainer st) i = Some e ->
      isControl e = true ->
      let st' := exec (handleTagFilterClick toLowerCase i) st in
      tagFilterContainer st' = marked i (tagFilterContainer st) /\
      (forall j e',
          nth_error (tagFilterContainer st') j = Some e' ->
          isControl e' = true ->
          (isActive e' = true <-> j = i)) /\
      length (activeControls st') = 1) /\
  (forall targets st,
      length (activeControls st) <= 1 ->
      outcome (forEach targets (click toLowerCase)) st = Returned tt /\
      length (activeControls (exec (forEach targets (click toLowerCase)) st)) <= 1) /\
  (forall i st e targets,
      clickListener st = true ->
      nth_error (tagFilterContainer st) i = Some e ->
      isControl e = true ->
      length (activeControls
                (exec (forEach (i :: targets) (click toLowerCase)) st)) <= 1) /\
  (forall fetched markup loading targets,
      length (filter activeControl markup) <= 1 ->
      length (activeControls
                (exec (forEach targets (click toLowerCase))
                      (exec (loadGameCatalog toLowerCase fetched)
                            (initialPage markup loading)))) <= 1).
Proof.
  split; [|split; [|split; [|split]]].
  - apply handleTagFilterClick_ignored.
  - intros i st e Hn Hc st'. subst st'.
    rewrite (handleTagFilterClick_elements toLowerCase i st e Hn Hc).
    split; [reflexivity|split].
    + intros j e' Hj Hc'. rewrite nth_error_marked in Hj.
      destruct (Nat.eqb i j) eqn:Eij.
      * apply Nat.eqb_eq in Eij. subst j.
        destruct (nth_error (tagFilterContainer st) i); [|discriminate].
        injection Hj as <-. rewrite isActive_activate. now split.
      * apply Nat.eqb_neq in Eij.
        destruct (nth_error (tagFilterContainer st) j) as [x|]; [|discriminate].
        injection Hj as <-. rewrite isControl_deactivate in Hc'.
        rewrite (isActive_deactivate x Hc'). split; [discriminate|].
        intros ->. congruence.
    + unfold activeControls.
      rewrite (handleTagFilterClick_elements toLowerCase i st e Hn Hc).
      now apply marked_exactly_one with (e := e).
  - apply clicks_keep_invariant.
  - intros i st e targets Hl Hn Hc.
    destruct (click_recognized i st e Hl Hn Hc) as (st' & E & T).
    unfold exec. simpl. unfold bind. rewrite E.
    apply clicks_keep_invariant.
    unfold activeControls. rewrite T. apply marked_at_most_one.
  - intros fetched markup loading targets H.
    apply clicks_keep_invariant.
    now rewrite loadGameCatalog_activeControls.
Qed.


End Session.

(** ** Concrete pages *)

(** Two spellings of a tag are two members of the set and two controls,
    both with the same key. *)
Example two_spellings_two_controls :
  tagFilterContainer
    (exec (populateTagFilters asciiLower
             [mkGame None None None None None (Some ["RPG"; "rpg"; "RPG"])])
          (initialPage [] None)) =
  [mkElement ["tag-filter"] "RPG" (Some "rpg");
   mkElement ["tag-filter"] "rpg" (Some "rpg")].
Proof. reflexivity. Qed.

(** The key of a control matches whole tags, not parts of them. *)
Example key_is_not_a_substring :
  filteredGames asciiLower [snake] (Some "arc") = Returned [] /\
  filteredGames asciiLower [snake] (Some "arcade") = Returned [snake].
Proof. split; reflexivity. Qed.

Lemma at_most_one_active_control_witness :
  let st := mkPage (Records [chess; snake]) []
                   [mkElement ["tag-filter"; "active"] "All" (Some "all");
                    mkElement ["tag-filter"] "arcade" (Some "arcade")]
                   true None [] in
  length (activeControls st) <= 1 /\
  length (activeControls
            (exec (forEach [1; 0; 5; 1] (click asciiLower)) st)) <= 1.
Proof.
  intros st.
  assert (length (activeControls st) <= 1) as H by (vm_compute; lia).
  split; [exact H|].
  exact (proj2 (proj1 (proj2 (proj2 (at_most_one_active_control asciiLower)))
                      [1; 0; 5; 1] st H)).
Defined.

Lemma populateTagFilters_one_control_per_tag_witness :
  allTagged [chess; snake] = true /\
  NoDup (map textContent
             (map (makeButton asciiLower) (uniqueTagsOf [chess; snake]))).
Proof.
  split; [reflexivity|].
  exact (proj1 (proj2 (proj2
           (populateTagFilters_one_control_per_tag
              asciiLower [chess; snake] (initialPage [] None) eq_refl)))).
Defined.

Lemma filter_activation_subset_witness :
  allTagged [chess; snake] = true /\
  In "arcade" (catalogTags [chess; snake]) /\
  asciiLower "arcade" <> "all" /\
  filteredGames asciiLower [chess; snake] (Some (asciiLower "arcade")) =
  Returned (specSubset asciiLower [chess; snake] "arcade").
Proof.
  assert (In "arcade" (catalogTags [chess; snake])) as I
      by (simpl; auto).
  assert (asciiLower "arcade" <> "all") as N by (vm_compute; discriminate).
  split; [reflexivity|split; [exact I|split; [exact N|]]].
  exact (proj1 (proj2 (filter_activation_subset
                         asciiLower [chess; snake] "arcade" eq_refl I N))).
Defined.

(** C1 fails as stated: the tag All of this catalog lower-cases to the
    pseudo-key, so the control the setup creates for it shows both records,
    while only one of them carries the tag.  And on a catalog with a record
    without tags the filter logic throws for a tag of the catalog. *)
Lemma filter_activation_subset_counterexample :
  let catalog := [chess; snake] in
  let st := exec (loadGameCatalog asciiLower (Response true "OK" (Json catalog)))
                 (initialPage [] None) in
  allTagged catalog = true /\
  In "All" (catalogTags catalog) /\
  nth_error (tagFilterContainer st) 0 =
    Some (mkElement ["tag-filter"] "All" (Some (asciiLower "All"))) /\
  filteredGames asciiLower catalog (Some (asciiLower "All")) =
    Returned [chess; snake] /\
  specSubset asciiLower catalog "All" = [chess] /\
  cards (exec (click asciiLower 0) st) = [makeCard chess; makeCard snake] /\
  filteredGames asciiLower catalog (Some (asciiLower "All")) <>
    Returned (specSubset asciiLower catalog "All") /\
  In "arcade" (catalogTags [snake; untagged]) /\
  filteredGames asciiLower [snake; untagged] (Some (asciiLower "arcade")) =
    Thrown TypeError.
Proof.
  repeat split; try reflexivity.
  - simpl; auto.
  - vm_compute. discriminate.
  - simpl; auto.
Qed.

Lemma activation_faults_on_untagged_witness :
  allTagged [snake; untagged] = false /\
  filteredGames asciiLower [snake; untagged] (Some "arcade") = Thrown TypeError.
Proof.
  split; [reflexivity|].
  exact (proj1 (activation_faults_on_untagged asciiLower [snake; untagged] eq_refl)
               (Some "arcade") eq_refl).
Defined.

Lemma all_tag_is_shadowed_witness :
  allTagged [chess; snake] = true /\
  In "All" (catalogTags [chess; snake]) /\
  asciiLower "All" = "all" /\
  filteredGames asciiLower [chess; snake] (Some "all") <>
  Returned (specSubset asciiLower [chess; snake] "All").
Proof.
  assert (In "All" (catalogTags [chess; snake])) as I by (simpl; auto).
  split; [reflexivity|split; [exact I|split; [reflexivity|]]].
  apply (proj1 (proj2 (proj2 (all_tag_is_shadowed
                                asciiLower [chess; snake] "All" eq_refl I eq_refl)))).
  exists snake. split; [simpl; auto|].
  simpl. intros [H|[H|[]]]; discriminate H.
Defined.

(** C10 fails as stated: in this catalog the records tagged All are
    exactly the records tagged Board, so the control of Board selects
    exactly the All-tagged subset; in a catalog whose records all carry
    the tag, the control keyed "all" itself shows exactly that subset; and
    on a catalog with a record without tags the setup creates no control. *)
Lemma all_tag_is_shadowed_counterexample :
  let catalog := [chess; snake] in
  let st := exec (loadGameCatalog asciiLower (Response true "OK" (Json catalog)))
                 (initialPage [] None) in
  In "All" (catalogTags catalog) /\
  asciiLower "All" = "all" /\
  specSubset asciiLower catalog "All" = [chess] /\
  nth_error (tagFilterContainer st) 1 =
    Some (mkElement ["tag-filter"] "Board" (Some "board")) /\
  filteredGames asciiLower catalog (Some "board") =
    Returned (specSubset asciiLower catalog "All") /\
  gameListContainer (exec (click asciiLower 1) st) =
    renderedNodes (specSubset asciiLower catalog "All") /\
  filteredGames asciiLower [chess] (Some "all") =
    Returned (specSubset asciiLower [chess] "All") /\
  In "All" (catalogTags [chess; untagged]) /\
  exec (populateTagFilters asciiLower [chess; untagged]) (initialPage [] None) =
    initialPage [] None.
Proof.
  repeat split; try reflexivity.
  - simpl; auto.
  - simpl; auto.
Qed.

Lemma load_failure_shows_error_witness :
  let fetched := Response false "Not Found" InvalidJson in
  let st' := exec (loadGameCatalog asciiLower fetched) (initialPage [] None) in
  loadError fetched = Some (Error "Failed to load catalog: Not Found") /\
  gameListContainer st' =
    [Paragraph (Some "color:red;")
       "Error: Could not load game catalog. Check console for details."] /\
  cards st' = [] /\
  allGamesData st' = Records [].
Proof.
  intros fetched st'.
  pose proof (proj1 (proj2 (load_failure_shows_error
                              asciiLower fetched
                              (Error "Failed to load catalog: Not Found")
                              eq_refl))
                    (initialPage [] None)) as (_ & A & _ & B & C & _).
  split; [reflexivity|split; [exact A|split; [exact B|exact C]]].
Defined.

(** C2 fails as stated: a body that is JSON but no sequence of records,
    here an object holding the records under a key, is stored in
    [allGamesData] before the renderer fails on it.  The page shows the
    single error paragraph and no card, but the catalog is not left unset,
    and the handler run on that page with a key other than "all" would
    throw instead of filtering an empty catalog. *)
Lemma load_failure_shows_error_counterexample :
  let body := JsonNonArray (ObjectValue [("games", JArray [])]) in
  let markup := [mkElement ["tag-filter"] "Arcade" (Some "arcade")] in
  let st' := exec (loadGameCatalog asciiLower (Response true "OK" body))
                  (initialPage markup None) in
  gameListContainer st' =
    [Paragraph (Some "color:red;")
       "Error: Could not load game catalog. Check console for details."] /\
  cards st' = [] /\
  allGamesData st' = NotArray (ObjectValue [("games", JArray [])]) /\
  allGamesData st' <> Records [] /\
  outcome (handleTagFilterClick asciiLower 0) st' = Thrown TypeError.
Proof.
  repeat split; try reflexivity.
  vm_compute. discriminate.
Qed.

Lemma setup_faults_on_untagged_witness :
  allTagged [snake; untagged] = false /\
  outcome (populateTagFilters asciiLower [snake; untagged])
          (initialPage [] None) = Thrown TypeError.
Proof.
  split; [reflexivity|].
  exact (proj1 (proj1 (setup_faults_on_untagged
                         asciiLower [snake; untagged] eq_refl)
                      (initialPage [] None))).
Defined.

(** C3 fails as stated: the fault of the setup is handled.  On this catalog
    the loader returns normally, with the error on the console and the load
    error paragraph in place of the two cards. *)
Lemma setup_faults_on_untagged_counterexample :
  let fetched := Response true "OK" (Json [snake; untagged]) in
  let st := initialPage [] None in
  allTagged [snake; untagged] = false /\
  outcome (populateTagFilters asciiLower [snake; untagged]) st =
    Thrown TypeError /\
  outcome (loadGameCatalog asciiLower fetched) st = Returned tt /\
  outcome (loadGameCatalog asciiLower fetched) st <> Thrown TypeError /\
  gameListContainer (exec (loadGameCatalog asciiLower fetched) st) =
    [errorMessage] /\
  console (exec (loadGameCatalog asciiLower fetched) st) = [TypeError].
Proof.
  repeat split; try reflexivity.
  vm_compute. discriminate.
Qed.

(** * Further properties of the script *)

(** ** What a load leaves on the page *)

Section LoadOutcomes.

Variable toLowerCase : string -> string.

Lemma loadGameCatalog_tagged (statusText : string) (games : list GameRecord)
      (st : Page) :
  allTagged games = true ->
  loadGameCatalog toLowerCase (Response true statusText (Json games)) st =
  (Returned tt,
   withButtons (withCatalog st games)
               (map (makeButton toLowerCase) (uniqueTagsOf games))).
Proof.
  intros H. unfold loadGameCatalog, tryCatch.
  rewrite loadGameCatalog_try_json.
  now rewrite (collectTags_tagged games [] H).
Qed.

Lemma loadGameCatalog_untagged (statusText : string) (games : list GameRecord)
      (st : Page) :
  allTagged games = false ->
  loadGameCatalog toLowerCase (Response true statusText (Json games)) st =
  (Returned tt, withError (withCatalog st games) TypeError).
Proof.
  intros H. unfold loadGameCatalog, tryCatch.
  rewrite loadGameCatalog_try_json.
  now rewrite (collectTags_untagged games [] H).
Qed.

Lemma loadGameCatalog_nonArray (statusText : string) (v : NonArray)
      (st : Page) :
  loadGameCatalog toLowerCase (Response true statusText (JsonNonArray v)) st =
  (Returned tt,
   mkPage (NotArray v) [errorMessage] (tagFilterContainer st)
          (clickListener st) None (console st ++ [TypeError])%list).
Proof.
  unfold loadGameCatalog, tryCatch.
  now rewrite loadGameCatalog_try_nonArray.
Qed.

Lemma renderedNodes_not_error (games : list GameRecord) :
  renderedNodes games <> [errorMessage].
Proof. destruct games as [|g games]; simpl; discriminate. Qed.

(** X1.  A load that delivers a catalog in which every record has tags
    returns normally; afterwards the catalog is stored, the container holds
    one card per record in catalog order (or the no-results paragraph), the
    filter container holds its former elements followed by the created
    buttons, the listener is registered, the loading indicator is gone and
    nothing was written to the console. *)
Theorem load_success_page (statusText : string) (games : list GameRecord)
        (st : Page) :
  allTagged games = true ->
  let st' := exec (loadGameCatalog toLowerCase
                     (Response true statusText (Json games))) st in
  outcome (loadGameCatalog toLowerCase
             (Response true statusText (Json games))) st = Returned tt /\
  allGamesData st' = Records games /\
  gameListContainer st' = renderedNodes games /\
  cards st' = map makeCard games /\
  tagFilterContainer st' =
    (tagFilterContainer st ++
     map (makeButton toLowerCase) (uniqueTagsOf games))%list /\
  clickListener st' = true /\
  loadingMessage st' = None /\
  console st' = console st.
Proof.
  intros H st'. subst st'. unfold outcome, exec.
  rewrite (loadGameCatalog_tagged statusText games st H). simpl.
  repeat split.
  pose proof (cards_renderedNodes games st) as C.
  unfold exec, cards in C. rewrite renderGameList_run in C. exact C.
Qed.

(** X2.  [loadGameCatalog] never lets an exception out, and it ends in one
    of two ways: either the container holds the error paragraph alone, no
    card is shown and exactly one error was added to the console, or the
    fetch delivered a catalog in which every record has tags, the
    container holds its rendering and the console is as before. *)
Theorem load_ends_in_error_or_catalog (fetched : FetchResult) (st : Page) :
  let st' := exec (loadGameCatalog toLowerCase fetched) st in
  outcome (loadGameCatalog toLowerCase fetched) st = Returned tt /\
  ((gameListContainer st' = [errorMessage] /\
    cards st' = [] /\
    (exists e, console st' = (console st ++ [e])%list) /\
    clickListener st' = clickListener st) \/
   (exists statusText games,
       fetched = Response true statusText (Json games) /\
       allTagged games = true /\
       gameListContainer st' = renderedNodes games /\
       gameListContainer st' <> [errorMessage] /\
       console st' = console st /\
       clickListener st' = true)).
Proof.
  intros st'. subst st'. unfold outcome, exec.
  destruct (loadError fetched) as [e|] eqn:L.
  - rewrite (loadGameCatalog_error toLowerCase fetched e st L). simpl.
    split; [reflexivity|left]. repeat split. now exists e.
  - destruct fetched as [|[|] statusText [|games|v]]; try discriminate L.
    + destruct (allTagged games) eqn:T.
      * rewrite (loadGameCatalog_tagged statusText games st T). simpl.
        split; [reflexivity|right]. exists statusText, games.
        split; [reflexivity|split; [exact T|]].
        split; [reflexivity|split; [apply renderedNodes_not_error|]].
        split; reflexivity.
      * rewrite (loadGameCatalog_untagged statusText games st T). simpl.
        split; [reflexivity|left]. repeat split. now exists TypeError.
    + rewrite (loadGameCatalog_nonArray statusText v st). simpl.
      split; [reflexivity|left]. repeat split. now exists TypeError.
Qed.

(** X3.  A load that delivers the empty catalog is a success, not an
    error: the container shows the no-results paragraph, no button is
    created, and the listener is registered all the same. *)
Theorem load_empty_catalog (statusText : string) (st : Page) :
  let st' := exec (loadGameCatalog toLowerCase
                     (Response true statusText (Json []))) st in
  gameListContainer st' = [noResults] /\
  tagFilterContainer st' = tagFilterContainer st /\
  clickListener st' = true /\
  allGamesData st' = Records [] /\
  console st' = console st.
Proof.
  intros st'. subst st'. unfold exec.
  rewrite (loadGameCatalog_tagged statusText [] st eq_refl). simpl.
  rewrite app_nil_r. repeat split.
Qed.

(** X4.  The loading indicator: the script removes it once a body has been
    parsed, wherever it sits and also when the setup faults afterwards.
    When the load fails before that, it goes only if it sits in the game
    list container, whose content the error paragraph replaces; elsewhere
    on the page it stays, next to the error. *)
Theorem loading_indicator_after_load (fetched : FetchResult) (st : Page) :
  let st' := exec (loadGameCatalog toLowerCase fetched) st in
  (forall statusText games,
      fetched = Response true statusText (Json games) ->
      loadingMessage st' = None) /\
  (forall statusText v,
      fetched = Response true statusText (JsonNonArray v) ->
      loadingMessage st' = None) /\
  (forall e,
      loadError fetched = Some e ->
      (loadingMessage st = Some Elsewhere -> loadingMessage st' = Some Elsewhere) /\
      (loadingMessage st <> Some Elsewhere -> loadingMessage st' = None)).
Proof.
  intros st'. subst st'. unfold exec. split; [|split].
  - intros statusText games ->.
    destruct (allTagged games) eqn:T.
    + now rewrite (loadGameCatalog_tagged statusText games st T).
    + now rewrite (loadGameCatalog_untagged statusText games st T).
  - intros statusText v ->.
    now rewrite (loadGameCatalog_nonArray statusText v st).
  - intros e L. rewrite (loadGameCatalog_error toLowerCase fetched e st L).
    simpl. split.
    + now intros ->.
    + destruct (loadingMessage st) as [[|]|]; simpl; congruence.
Qed.

Lemma clicks_without_listener (targets : list nat) (st : Page) :
  clickListener st = false ->
  forEach targets (click toLowerCase) st = (Returned tt, st).
Proof.
  intros H. induction targets as [|i targets IH]; simpl; [reflexivity|].
  unfold bind, click at 1. rewrite H. exact IH.
Qed.

(** X9.  Once a load from the initial page has ended with the error
    paragraph, the filter controls of the markup are inert: no listener was
    registered, so no sequence of clicks changes anything on the page. *)
Theorem clicks_after_error_change_nothing
        (fetched : FetchResult) (markup : list Element)
        (loading : option Place) (targets : list nat) :
  let st := exec (loadGameCatalog toLowerCase fetched)
                 (initialPage markup loading) in
  gameListContainer st = [errorMessage] ->
  clickListener st = false /\
  exec (forEach targets (click toLowerCase)) st = st.
Proof.
  intros st E.
  assert (clickListener st = false) as F.
  { subst st. unfold exec in *.
    destruct (loadError fetched) as [e|] eqn:L.
    - now rewrite (loadGameCatalog_error toLowerCase fetched e _ L).
    - destruct fetched as [|[|] statusText [|games|v]]; try discriminate L.
      + destruct (allTagged games) eqn:T.
        * rewrite (loadGameCatalog_tagged statusText games _ T) in E.
          simpl in E. now apply renderedNodes_not_error in E.
        * now rewrite (loadGameCatalog_untagged statusText games _ T).
      + now rewrite (loadGameCatalog_nonArray statusText v _). }
  split; [exact F|]. unfold exec.
  now rewrite (clicks_without_listener targets st F).
Qed.

End LoadOutcomes.

(** ** The order of the controls *)

Lemma filter_filter_and {A} (f g : A -> bool) (l : list A) :
  filter f (filter g l) = filter (fun x => g x && f x) l.
Proof.
  induction l as [|x l IH]; simpl; [reflexivity|].
  destruct (g x); simpl; [|exact IH].
  destruct (f x); now rewrite IH.
Qed.

Lemma has_app (s : JsSet) (x y : string) :
  has (s ++ [x])%list y = has s y || String.eqb y x.
Proof. unfold has. rewrite existsb_app. simpl. now rewrite orb_false_r. Qed.

Lemma fold_add_keepFirst (l : list string) (acc : JsSet) :
  fold_left add l acc =
  (acc ++ filter (fun y => negb (has acc y)) (keepFirst l))%list.
Proof.
  revert acc; induction l as [|x l IH]; intros acc; simpl.
  - now rewrite app_nil_r.
  - rewrite IH. unfold add. destruct (has acc x) eqn:E; simpl.
    + f_equal. rewrite filter_filter_and. apply filter_ext. intros y.
      destruct (String.eqb x y) eqn:F; simpl; [|reflexivity].
      apply String.eqb_eq in F. subst y. now rewrite E.
    + rewrite <- app_assoc. simpl. f_equal. f_equal.
      rewrite filter_filter_and. apply filter_ext. intros y.
      rewrite has_app, (String.eqb_sym y x).
      destruct (String.eqb x y), (has acc y); reflexivity.
Qed.

Lemma uniqueTagsOf_keepFirst (catalog : list GameRecord) :
  uniqueTagsOf catalog = keepFirst (catalogTags catalog).
Proof.
  unfold uniqueTagsOf. rewrite fold_add_keepFirst. simpl.
  induction (keepFirst (catalogTags catalog)) as [|x l IH]; simpl;
    [reflexivity|now rewrite IH].
Qed.

Section ControlOrder.

Variable toLowerCase : string -> string.

(** X5.  The controls the setup creates stand in the order in which their
    tags first occur in the catalog, after the elements that were already
    in the filter container. *)
Theorem controls_in_first_occurrence_order
        (catalog : list GameRecord) (st : Page) :
  allTagged catalog = true ->
  map textContent
      (tagFilterContainer (exec (populateTagFilters toLowerCase catalog) st)) =
  (map textContent (tagFilterContainer st) ++
   keepFirst (catalogTags catalog))%list.
Proof.
  intros H. unfold exec. rewrite populateTagFilters_run.
  rewrite (collectTags_tagged catalog [] H). simpl.
  rewrite map_app, textContent_makeButton.
  fold (uniqueTagsOf catalog). now rewrite uniqueTagsOf_keepFirst.
Qed.

End ControlOrder.

Lemma controls_in_first_occurrence_order_witness :
  allTagged [snake; chess; snake] = true /\
  map textContent
      (tagFilterContainer
         (exec (populateTagFilters asciiLower [snake; chess; snake])
               (initialPage [] None))) =
  ([] ++ keepFirst (catalogTags [snake; chess; snake]))%list.
Proof.
  split; [reflexivity|].
  exact (controls_in_first_occurrence_order
           asciiLower [snake; chess; snake] (initialPage [] None) eq_refl).
Defined.

(** ** What clicks keep *)

Lemma sameControl_refl (x : Element) : sameControl x x.
Proof. unfold sameControl. auto. Qed.

Lemma sameControl_trans (x y z : Element) :
  sameControl x y -> sameControl y z -> sameControl x z.
Proof.
  unfold sameControl. intros (A & B & C & D) (A' & B' & C' & D').
  repeat split; try congruence.
  intros N. rewrite D' by congruence. now apply D.
Qed.

Lemma sameControl_deactivate (x : Element) : sameControl x (deactivate x).
Proof.
  unfold sameControl. rewrite isControl_deactivate.
  unfold deactivate. fold (isControl x).
  destruct (isControl x) eqn:E; simpl; repeat split; auto. discriminate.
Qed.

Lemma sameControl_activate (x : Element) :
  isControl x = true -> sameControl x (activate x).
Proof.
  intros H. unfold sameControl. rewrite isControl_activate.
  simpl. repeat split. congruence.
Qed.

Lemma Forall2_sameControl_refl (l : list Element) : Forall2 sameControl l l.
Proof. induction l; constructor; auto using sameControl_refl. Qed.

Lemma Forall2_sameControl_trans (l m n : list Element) :
  Forall2 sameControl l m -> Forall2 sameControl m n -> Forall2 sameControl l n.
Proof.
  intros H; revert n; induction H as [|x y l m R H IH]; intros n K.
  - inversion K. constructor.
  - inversion K as [|y' z m' n' R' K']; subst. constructor.
    + eapply sameControl_trans; eassumption.
    + now apply IH.
Qed.

Lemma Forall2_sameControl_marked (i : nat) (els : list Element) (e : Element) :
  nth_error els i = Some e ->
  isControl e = true ->
  Forall2 sameControl els (marked i els).
Proof.
  unfold marked. revert i; induction els as [|x els IH]; intros i Hn Hc.
  - destruct i; discriminate Hn.
  - destruct i as [|i]; simpl in *.
    + injection Hn as ->. constructor.
      * eapply sameControl_trans; [apply sameControl_deactivate|].
        apply sameControl_activate. now rewrite isControl_deactivate.
      * clear. induction els; simpl; constructor;
          auto using sameControl_deactivate.
    + constructor; [apply sameControl_deactivate|now apply IH].
Qed.

Section ClicksKeep.

Variable toLowerCase : string -> string.

Lemma click_keeps (i : nat) (st : Page) :
  exists st',
    click toLowerCase i st = (Returned tt, st') /\
    allGamesData st' = allGamesData st /\
    clickListener st' = clickListener st /\
    Forall2 sameControl (tagFilterContainer st) (tagFilterContainer st').
Proof.
  unfold click. destruct (clickListener st) eqn:L.
  - unfold tryCatch.
    destruct (nth_error (tagFilterContainer st) i) as [e|] eqn:Hn.
    + destruct (isControl e) eqn:Hc.
      * destruct (handleTagFilterClick_any toLowerCase i st e Hn Hc)
          as (o & st' & E & T & A & B & _).
        rewrite E.
        destruct o as [[]|ex]; eexists; (split; [reflexivity|]); simpl;
          (split; [exact A|split; [now rewrite B|]]); rewrite T;
          now apply Forall2_sameControl_marked with (e := e).
      * rewrite handleTagFilterClick_ignored by now rewrite Hn.
        eexists; split; [reflexivity|].
        repeat split; [exact L|apply Forall2_sameControl_refl].
    + rewrite handleTagFilterClick_ignored by now rewrite Hn.
      eexists; split; [reflexivity|].
      repeat split; [exact L|apply Forall2_sameControl_refl].
  - eexists; split; [reflexivity|].
    repeat split; [exact L|apply Forall2_sameControl_refl].
Qed.

(** X6.  No sequence of clicks touches the catalog or the listener, and in
    the filter container it changes nothing but the class lists of the
    controls: the elements stay as many, each keeps its label and its key
    and stays a control or none, and an element that is no control stays
    as it is. *)
Theorem clicks_keep_catalog_and_controls (targets : list nat) (st : Page) :
  let st' := exec (forEach targets (click toLowerCase)) st in
  allGamesData st' = allGamesData st /\
  clickListener st' = clickListener st /\
  Forall2 sameControl (tagFilterContainer st) (tagFilterContainer st') /\
  length (tagFilterContainer st') = length (tagFilterContainer st) /\
  map textContent (tagFilterContainer st') =
    map textContent (tagFilterContainer st) /\
  map data_tag (tagFilterContainer st') = map data_tag (tagFilterContainer st).
Proof.
  intros st'. subst st'.
  assert (allGamesData (exec (forEach targets (click toLowerCase)) st) =
            allGamesData st /\
          clickListener (exec (forEach targets (click toLowerCase)) st) =
            clickListener st /\
          Forall2 sameControl (tagFilterContainer st)
                  (tagFilterContainer
                     (exec (forEach targets (click toLowerCase)) st)))
    as (A & B & C).
  { revert st; induction targets as [|i targets IH]; intros st; simpl.
    - repeat split. apply Forall2_sameControl_refl.
    - destruct (click_keeps i st) as (st1 & E & A1 & B1 & C1).
      unfold exec, bind. rewrite E.
      destruct (IH st1) as (A & B & C). unfold exec in A, B, C.
      repeat split; try congruence.
      eapply Forall2_sameControl_trans; eassumption. }
  split; [exact A|split; [exact B|split; [exact C|]]].
  clear A B.
  induction C as [|x y l m (T & D & _) C IH]; simpl.
  - repeat split.
  - destruct IH as (I1 & I2 & I3). repeat split; congruence.
Qed.

End ClicksKeep.

(** ** The last click decides *)

Lemma classRemove_idem (cl : list string) (c : string) :
  classRemove (classRemove cl c) c = classRemove cl c.
Proof.
  unfold classRemove. rewrite filter_filter_and. apply filter_ext.
  intros x. now destruct (String.eqb c x).
Qed.

Lemma classRemove_classAdd (cl : list string) (c : string) :
  classRemove (classAdd (classRemove cl c) c) c = classRemove cl c.
Proof.
  unfold classAdd. rewrite contains_classRemove_same.
  unfold classRemove at 1. rewrite filter_app. simpl.
  rewrite String.eqb_refl. simpl. rewrite app_nil_r.
  apply classRemove_idem.
Qed.

Lemma deactivate_idem (x : Element) : deactivate (deactivate x) = deactivate x.
Proof.
  unfold deactivate at 1. fold (isControl (deactivate x)).
  rewrite isControl_deactivate.
  destruct (isControl x) eqn:E; [|reflexivity].
  unfold deactivate. fold (isControl x). rewrite E. simpl.
  now rewrite classRemove_idem.
Qed.

Lemma deactivate_activate_deactivate (x : Element) :
  isControl x = true ->
  deactivate (activate (deactivate x)) = deactivate x.
Proof.
  intros H. unfold deactivate at 1.
  fold (isControl (activate (deactivate x))).
  rewrite isControl_activate, isControl_deactivate, H.
  unfold deactivate. fold (isControl x). rewrite H. simpl.
  now rewrite classRemove_classAdd.
Qed.

Lemma marked_marked (i j : nat) (els : list Element) (e : Element) :
  nth_error els i = Some e ->
  isControl e = true ->
  marked j (marked i els) = marked j els.
Proof.
  intros Hn Hc. apply nth_error_ext. intros k.
  rewrite !nth_error_marked.
  destruct (Nat.eqb i k) eqn:Eik.
  - apply Nat.eqb_eq in Eik. subst k. rewrite Hn. simpl.
    rewrite (deactivate_activate_deactivate e Hc).
    now destruct (Nat.eqb j i).
  - destruct (nth_error els k) as [x|]; simpl.
    + rewrite deactivate_idem. now destruct (Nat.eqb j k).
    + now destruct (Nat.eqb j k).
Qed.

Lemma data_tag_deactivate (x : Element) : data_tag (deactivate x) = data_tag x.
Proof. unfold deactivate. now destruct (contains (classList x) "tag-filter"). Qed.

Section LastClick.

Variable toLowerCase : string -> string.

Lemma filteredGames_tagged (catalog : list GameRecord) (key : option string) :
  allTagged catalog = true ->
  filteredGames toLowerCase catalog key =
  Returned (if isAll key then catalog else carrying toLowerCase catalog key).
Proof.
  intros H. unfold filteredGames. destruct (isAll key); [reflexivity|].
  now apply filterGames_tagged.
Qed.

Lemma click_run (i : nat) (st : Page) (e : Element)
      (catalog : list GameRecord) :
  clickListener st = true ->
  allGamesData st = Records catalog ->
  allTagged catalog = true ->
  nth_error (tagFilterContainer st) i = Some e ->
  isControl e = true ->
  click toLowerCase i st =
  (Returned tt,
   withRendered (withFilterElements st (marked i (tagFilterContainer st)))
                (if isAll (data_tag e) then catalog
                 else carrying toLowerCase catalog (data_tag e))).
Proof.
  intros L A T Hn Hc. unfold click, tryCatch. rewrite L.
  rewrite (handleTagFilterClick_run toLowerCase i st e catalog Hn Hc A). simpl.
  now rewrite (filteredGames_tagged _ _ T).
Qed.

(** X7.  On a page with a registered listener and a catalog in which every
    record has tags, a click on a control followed by a click on a control
    leaves exactly the page the second click alone leaves: marks and
    display depend on the last control clicked, not on the ones before.  In
    particular a second click on the same control changes nothing. *)
Theorem last_click_decides (i j : nat) (st : Page) (ei ej : Element)
        (catalog : list GameRecord) :
  clickListener st = true ->
  allGamesData st = Records catalog ->
  allTagged catalog = true ->
  nth_error (tagFilterContainer st) i = Some ei ->
  isControl ei = true ->
  nth_error (tagFilterContainer st) j = Some ej ->
  isControl ej = true ->
  exec (click toLowerCase j) (exec (click toLowerCase i) st) =
    exec (click toLowerCase j) st /\
  exec (click toLowerCase i) (exec (click toLowerCase i) st) =
    exec (click toLowerCase i) st.
Proof.
  intros L A T Hi Ci Hj Cj.
  assert (forall k ek,
             nth_error (tagFilterContainer st) k = Some ek ->
             isControl ek = true ->
             exec (click toLowerCase k) (exec (click toLowerCase i) st) =
             exec (click toLowerCase k) st) as K.
  { intros k ek Hk Ck. unfold exec.
    rewrite (click_run i st ei catalog L A T Hi Ci). cbn [snd].
    set (st1 := withRendered _ _).
    assert (exists ek', nth_error (tagFilterContainer st1) k = Some ek' /\
                        isControl ek' = true /\ data_tag ek' = data_tag ek)
      as (ek' & Hk' & Ck' & Dk').
    { subst st1. cbn [tagFilterContainer withRendered withFilterElements].
      rewrite nth_error_marked, Hk.
      destruct (Nat.eqb i k); simpl; eexists; (split; [reflexivity|]).
      - rewrite isControl_activate, isControl_deactivate. split; [exact Ck|].
        simpl. apply data_tag_deactivate.
      - rewrite isControl_deactivate. split; [exact Ck|].
        apply data_tag_deactivate. }
    rewrite (click_run k st1 ek' catalog L A T Hk' Ck').
    rewrite (click_run k st ek catalog L A T Hk Ck). cbn [snd].
    subst st1. unfold withRendered, withFilterElements. simpl.
    rewrite (marked_marked i k _ ei Hi Ci), detach_idem, Dk'.
    reflexivity. }
  split; [apply (K j ej Hj Cj)|apply (K i ei Hi Ci)].
Qed.

Lemma carrying_none (catalog : list GameRecord) (key : option string) :
  (forall g, In g catalog ->
             includes (map toLowerCase (orEmpty (tags g))) key = false) ->
  carrying toLowerCase catalog key = [].
Proof.
  unfold carrying. induction catalog as [|g catalog IH]; intros H; simpl;
    [reflexivity|].
  rewrite (H g (or_introl eq_refl)). apply IH. intros g' Hg'.
  apply H. now right.
Qed.

(** X8.  On a catalog in which every record has tags, a control whose
    [data-tag] attribute is missing, or whose key is not "all" and is the
    lower-cased form of no tag of any record, is no error: its click
    returns and shows the no-results paragraph. *)
Theorem unmatched_key_shows_no_results (i : nat) (st : Page) (e : Element)
        (catalog : list GameRecord) :
  allGamesData st = Records catalog ->
  allTagged catalog = true ->
  nth_error (tagFilterContainer st) i = Some e ->
  isControl e = true ->
  data_tag e = None \/
  (isAll (data_tag e) = false /\
   forall g, In g catalog ->
             includes (map toLowerCase (orEmpty (tags g))) (data_tag e) = false) ->
  outcome (handleTagFilterClick toLowerCase i) st = Returned tt /\
  gameListContainer (exec (handleTagFilterClick toLowerCase i) st) = [noResults] /\
  cards (exec (handleTagFilterClick toLowerCase i) st) = [].
Proof.
  intros Ha T Hn Hc K.
  assert (filteredGames toLowerCase catalog (data_tag e) = Returned [])
    as F.
  { rewrite (filteredGames_tagged _ _ T).
    destruct K as [N|(A & N)].
    - rewrite N. simpl. now rewrite carrying_none.
    - rewrite A. now rewrite carrying_none. }
  unfold cards.
  destruct (handleTagFilterClick_shows toLowerCase i st e catalog [] Hn Hc Ha F)
    as (A & B & _).
  rewrite B. repeat split. exact A.
Qed.

End LastClick.

(** ** The display over a session *)

Lemma Subseq_refl {A} (l : list A) : Subseq l l.
Proof. induction l; constructor; assumption. Qed.

Lemma Subseq_filter {A} (f : A -> bool) (l : list A) : Subseq (filter f l) l.
Proof.
  induction l as [|x l IH]; simpl; [constructor|].
  destruct (f x); constructor; exact IH.
Qed.

Lemma Subseq_incl {A} (s l : list A) : Subseq s l -> incl s l.
Proof.
  induction 1 as [|x s l H IH|x s l H IH]; intros y Hy.
  - exact Hy.
  - destruct Hy as [<-|Hy]; [now left|right; now apply IH].
  - right. now apply IH.
Qed.

Lemma Subseq_length {A} (s l : list A) : Subseq s l -> length s <= length l.
Proof. induction 1; simpl; lia. Qed.

Section Session2.

Variable toLowerCase : string -> string.

Lemma click_shows_catalog_records (i : nat) (st : Page)
      (catalog : list GameRecord) :
  allTagged catalog = true ->
  showsCatalogRecords catalog st ->
  exists st',
    click toLowerCase i st = (Returned tt, st') /\
    console st' = console st /\
    showsCatalogRecords catalog st'.
Proof.
  intros T (A & S). unfold click. destruct (clickListener st) eqn:L.
  - destruct (nth_error (tagFilterContainer st) i) as [e|] eqn:Hn.
    + destruct (isControl e) eqn:Hc.
      * pose proof (click_run toLowerCase i st e catalog L A T Hn Hc) as R.
        unfold click in R. rewrite L in R. rewrite R.
        eexists; split; [reflexivity|]. simpl.
        split; [reflexivity|split; [exact A|]].
        eexists; split; [|reflexivity].
        destruct (isAll (data_tag e));
          [apply Subseq_refl|apply Subseq_filter].
      * unfold tryCatch.
        rewrite handleTagFilterClick_ignored by now rewrite Hn.
        eexists; split; [reflexivity|split; [reflexivity|now split]].
    + unfold tryCatch.
      rewrite handleTagFilterClick_ignored by now rewrite Hn.
      eexists; split; [reflexivity|split; [reflexivity|now split]].
  - eexists; split; [reflexivity|split; [reflexivity|now split]].
Qed.

Lemma clicks_show_catalog_records (targets : list nat) (st : Page)
      (catalog : list GameRecord) :
  allTagged catalog = true ->
  showsCatalogRecords catalog st ->
  let st' := exec (forEach targets (click toLowerCase)) st in
  console st' = console st /\
  showsCatalogRecords catalog st'.
Proof.
  intros T. revert st; induction targets as [|i targets IH]; intros st S; simpl.
  - split; [reflexivity|exact S].
  - destruct (click_shows_catalog_records i st catalog T S) as (st1 & E & C & S1).
    unfold exec, bind. rewrite E.
    destruct (IH st1 S1) as (C' & S'). unfold exec in C', S'.
    split; [congruence|exact S'].
Qed.

(** X10.  After a load that delivered a catalog in which every record has
    tags, and after any sequence of clicks whatever their targets, the
    catalog is still the one that was loaded, the display is the rendering
    of records of that catalog in catalog order (it is never the error
    paragraph, and it has no more cards than the catalog has records), and
    no error was written to the console. *)
Theorem session_shows_catalog_records
        (statusText : string) (games : list GameRecord)
        (markup : list Element) (loading : option Place)
        (targets : list nat) :
  allTagged games = true ->
  let st := exec (forEach targets (click toLowerCase))
                 (exec (loadGameCatalog toLowerCase
                          (Response true statusText (Json games)))
                       (initialPage markup loading)) in
  allGamesData st = Records games /\
  console st = [] /\
  gameListContainer st <> [errorMessage] /\
  exists shown,
    Subseq shown games /\
    gameListContainer st = renderedNodes shown /\
    cards st = map makeCard shown /\
    length (cards st) <= length games.
Proof.
  intros T st. subst st.
  set (st0 := exec (loadGameCatalog toLowerCase
                      (Response true statusText (Json games)))
                   (initialPage markup loading)).
  assert (allGamesData st0 = Records games /\
          gameListContainer st0 = renderedNodes games /\
          console st0 = []) as (A0 & G0 & C0).
  { subst st0. unfold exec.
    rewrite (loadGameCatalog_tagged toLowerCase statusText games _ T).
    repeat split. }
  assert (showsCatalogRecords games st0) as S0.
  { split; [exact A0|]. exists games. split; [apply Subseq_refl|exact G0]. }
  destruct (clicks_show_catalog_records targets st0 games T S0)
    as (C & (A & shown & Sub & G)).
  split; [exact A|split; [now rewrite C, C0|split]].
  - rewrite G. apply renderedNodes_not_error.
  - exists shown.
    assert (cards (exec (forEach targets (click toLowerCase)) st0) =
            map makeCard shown) as CS.
    { unfold cards. rewrite G.
      pose proof (cards_renderedNodes shown st0) as K.
      unfold exec, cards in K. now rewrite renderGameList_run in K. }
    split; [exact Sub|split; [exact G|split; [exact CS|]]].
    rewrite CS, length_map. now apply Subseq_length.
Qed.

End Session2.

(** ** Images and text fields *)

(** X11.  The image of a card ends up shown exactly when its own source
    or the placeholder can be fetched.  When its own source can be fetched
    the image is left as rendered, after one fetch; otherwise it carries
    the placeholder, after two. *)
Theorem image_shown_iff_fetchable
        (game : GameRecord) (loads : string -> bool) (fuel : nat) :
  let own := orElse (thumbnail game) placeholderSvg in
  exists final fetches,
    loadImage (S (S fuel)) loads (img (makeCard game)) =
      Some (final, loads own || loads placeholderSvg, fetches) /\
    (loads own = true -> final = img (makeCard game) /\ fetches = 1) /\
    (loads own = false -> src final = placeholderSvg /\ fetches = 2).
Proof.
  intros own. subst own. rewrite loadImage_card.
  destruct (loads (orElse (thumbnail game) placeholderSvg)) eqn:L.
  - eexists _, _. split; [reflexivity|]. split; [auto|discriminate].
  - eexists _, _. split; [reflexivity|]. split; [discriminate|].
    intros _. rewrite dispatchError_card. split; reflexivity.
Qed.

Lemma image_shown_iff_fetchable_witness :
  exists final fetches,
    loadImage 2 (fun s => String.eqb s placeholderSvg)
              (img (makeCard chess)) =
      Some (final, true, fetches) /\
    final = img (makeCard chess) /\ fetches = 1.
Proof.
  destruct (image_shown_iff_fetchable
              chess (fun s => String.eqb s placeholderSvg) 0)
    as (final & fetches & E & A & _).
  exists final, fetches. split; [exact E|]. apply A. reflexivity.
Defined.

Lemma orElse_blank (a : option string) (d : string) :
  orElse (blankToAbsent a) d = orElse a d.
Proof. destruct a as [[|c s]|]; reflexivity. Qed.

Lemma orElse_not_empty (a : option string) (d : string) :
  d <> EmptyString -> orElse a d <> EmptyString.
Proof. intros N. destruct a as [[|c s]|]; simpl; [exact N|discriminate|exact N]. Qed.

Lemma placeholderSvg_not_empty : placeholderSvg <> EmptyString.
Proof.
  intros H. apply (f_equal String.length) in H. vm_compute in H. discriminate H.
Qed.

(** X12.  A text field that holds the empty string is rendered like an
    absent one: the card of a record is the card of the record with its
    empty text fields removed, and so is the rendering of a whole list. *)
Theorem blank_fields_render_as_absent :
  (forall g, makeCard (withoutBlanks g) = makeCard g) /\
  (forall games st,
      renderGameList (map withoutBlanks games) st = renderGameList games st).
Proof.
  assert (forall g, makeCard (withoutBlanks g) = makeCard g) as M.
  { intros [t d th l gh tg]. unfold makeCard, withoutBlanks, tagsHtml, badges.
    cbn [title description thumbnail link github_url tags].
    now rewrite !orElse_blank. }
  split; [exact M|]. intros games st.
  rewrite !renderGameList_run. f_equal. f_equal.
  destruct games as [|g games]; [reflexivity|].
  unfold renderedNodes. cbn [map]. rewrite M. f_equal.
  rewrite map_map. apply map_ext. intros x. now rewrite M.
Qed.

(** X13.  Whatever the record holds, its card has an image source, an
    alternative text and two link targets that are not empty, both links
    open in a new browsing context, and the image has its fallback
    installed. *)
Theorem card_fields_never_empty (g : GameRecord) :
  src (img (makeCard g)) <> EmptyString /\
  alt (img (makeCard g)) <> EmptyString /\
  href (playBtn (makeCard g)) <> EmptyString /\
  href (srcBtn (makeCard g)) <> EmptyString /\
  target (playBtn (makeCard g)) = "_blank" /\
  target (srcBtn (makeCard g)) = "_blank" /\
  onerror (img (makeCard g)) = Some PlaceholderFallback.
Proof.
  simpl. repeat split.
  - apply orElse_not_empty, placeholderSvg_not_empty.
  - apply orElse_not_empty. discriminate.
  - apply orElse_not_empty. discriminate.
  - apply orElse_not_empty. discriminate.
Qed.

(** ** Concrete sessions *)

Lemma load_success_page_witness :
  let st' := exec (loadGameCatalog asciiLower
                     (Response true "OK" (Json [chess; snake])))
                  (initialPage [] (Some Elsewhere)) in
  allTagged [chess; snake] = true /\
  cards st' = map makeCard [chess; snake] /\
  clickListener st' = true /\
  loadingMessage st' = None.
Proof.
  intros st'.
  destruct (load_success_page asciiLower "OK" [chess; snake]
                              (initialPage [] (Some Elsewhere)) eq_refl)
    as (_ & _ & _ & A & _ & B & C & _).
  split; [reflexivity|split; [exact A|split; [exact B|exact C]]].
Defined.

Lemma loading_indicator_after_load_witness :
  let fetched := Response false "Not Found" InvalidJson in
  loadError fetched = Some (Error "Failed to load catalog: Not Found") /\
  loadingMessage (exec (loadGameCatalog asciiLower fetched)
                       (initialPage [] (Some Elsewhere))) = Some Elsewhere.
Proof.
  intros fetched. split; [reflexivity|].
  exact (proj1 (proj2 (proj2 (loading_indicator_after_load
                                asciiLower fetched
                                (initialPage [] (Some Elsewhere))))
                      (Error "Failed to load catalog: Not Found") eq_refl)
               eq_refl).
Defined.

Lemma clicks_after_error_change_nothing_witness :
  let markup := [mkElement ["tag-filter"; "active"] "All" (Some "all")] in
  let st := exec (loadGameCatalog asciiLower (Response false "Not Found" InvalidJson))
                 (initialPage markup None) in
  gameListContainer st = [errorMessage] /\
  exec (forEach [0; 0; 3] (click asciiLower)) st = st.
Proof.
  intros markup st. split; [reflexivity|].
  exact (proj2 (clicks_after_error_change_nothing
                  asciiLower (Response false "Not Found" InvalidJson)
                  markup None [0; 0; 3] eq_refl)).
Defined.

Lemma last_click_decides_witness :
  let st := exec (loadGameCatalog asciiLower
                    (Response true "OK" (Json [chess; snake])))
                 (initialPage [] None) in
  clickListener st = true /\
  allGamesData st = Records [chess; snake] /\
  allTagged [chess; snake] = true /\
  nth_error (tagFilterContainer st) 1 =
    Some (mkElement ["tag-filter"] "Board" (Some "board")) /\
  nth_error (tagFilterContainer st) 2 =
    Some (mkElement ["tag-filter"] "arcade" (Some "arcade")) /\
  exec (click asciiLower 2) (exec (click asciiLower 1) st) =
    exec (click asciiLower 2) st.
Proof.
  intros st.
  split; [reflexivity|split; [reflexivity|split; [reflexivity|split;
    [reflexivity|split; [reflexivity|]]]]].
  exact (proj1 (last_click_decides
                  asciiLower 1 2 st
                  (mkElement ["tag-filter"] "Board" (Some "board"))
                  (mkElement ["tag-filter"] "arcade" (Some "arcade"))
                  [chess; snake]
                  eq_refl eq_refl eq_refl eq_refl eq_refl eq_refl eq_refl)).
Defined.

Lemma unmatched_key_shows_no_results_witness :
  let st := mkPage (Records [snake]) [CardNode (makeCard snake)]
                   [mkElement ["tag-filter"] "Everything" None]
                   true None [] in
  allTagged [snake] = true /\
  gameListContainer (exec (handleTagFilterClick asciiLower 0) st) = [noResults].
Proof.
  intros st. split; [reflexivity|].
  exact (proj1 (proj2 (unmatched_key_shows_no_results
                         asciiLower 0 st
                         (mkElement ["tag-filter"] "Everything" None)
                         [snake]
                         eq_refl eq_refl eq_refl eq_refl
                         (or_introl eq_refl)))).
Defined.

Lemma session_shows_catalog_records_witness :
  let st := exec (forEach [0; 2; 7] (click asciiLower))
                 (exec (loadGameCatalog asciiLower
                          (Response true "OK" (Json [chess; snake])))
                       (initialPage [] None)) in
  allTagged [chess; snake] = true /\
  allGamesData st = Records [chess; snake] /\
  console st = [].
Proof.
  intros st.
  destruct (session_shows_catalog_records
              asciiLower "OK" [chess; snake] [] None [0; 2; 7] eq_refl)
    as (A & B & _).
  split; [reflexivity|split; [exact A|exact B]].
Defined.

(** X14.  [renderGameList] writes to the game list container only: it
    leaves the catalog, the filter container, the listener and the console
    as they are; and a render after a render leaves exactly the page the
    second one alone leaves. *)
Theorem render_touches_the_game_list_only
        (first second : list GameRecord) (st : Page) :
  let st' := exec (renderGameList second) st in
  allGamesData st' = allGamesData st /\
  tagFilterContainer st' = tagFilterContainer st /\
  clickListener st' = clickListener st /\
  console st' = console st /\
  exec (renderGameList second) (exec (renderGameList first) st) = st'.
Proof.
  intros st'. subst st'. unfold exec. rewrite !renderGameList_run. simpl.
  rewrite detach_idem. repeat split.
Qed.
